(** * mcp-swagger-reader: the document pipeline of [src/index.ts]

    A shallow embedding of the functions of [src/index.ts] that acquire,
    filter, normalise and sanitise an API description document, with the
    properties of the specification stated and settled against them.

    Layout: [JS] holds the value model (primitives, object identity, property
    access); [Sanitizer], [Mock], [Normalizer], [Net] and [Handler] embed
    [sanitizeRecursive], [generateMockData], [simplifyPaths],
    [fetchRawSwagger] / [getSwaggerApi] and the [read_swagger_api] branch of
    the tool-call handler. *)

From Stdlib Require Import ZArith String Ascii List Bool Lia DecimalString.
From Stdlib Require Import DecimalNat DecimalFacts.
From stdpp Require Import base option list gmap strings.
Import ListNotations.

Set Warnings "-register-all".

Local Open Scope Z_scope.
Local Open Scope string_scope.

(** ** Values *)

Module JS.

(** Identity of an object of the fetched document. *)
Definition loc := nat.

(** Primitive values. Numbers are the integers (a parsed JSON document holds
    no NaN and no negative zero, and no claim computes with fractions). *)
Inductive prim :=
| PUndef
| PNull
| PBool (b : bool)
| PNum (n : Z)
| PStr (s : string).

(** A value is a primitive, a reference to an object of the document (objects
    of the document may be shared and may form cycles, so they are named by
    their identity and live in the heap), or an object or array literal the
    pipeline has just allocated. A literal is reachable through the one place
    that holds it, so it is written as a tree: its identity is never
    compared with that of another value. Fields are listed in property
    enumeration order and their keys are pairwise distinct, as in every
    object; no key is "__proto__". *)
Inductive value :=
| VPrim (p : prim)
| VRef (l : loc)
| VNewArr (items : list value)
| VNewObj (fields : list (string * value)).

Inductive node :=
| NArr (items : list value)
| NObj (fields : list (string * value)).

Abbreviation heap := (gmap loc node).

Definition undefined : value := VPrim PUndef.
Definition str (s : string) : value := VPrim (PStr s).
Definition num (n : Z) : value := VPrim (PNum n).

(** A reference always points to a live object; an identity the heap does
    not list denotes the empty object. *)
Definition node_of (h : heap) (l : loc) : node := default (NObj []) (h !! l).

Definition shape (h : heap) (v : value) : option node :=
  match v with
  | VPrim _ => None
  | VRef l => Some (node_of h l)
  | VNewArr items => Some (NArr items)
  | VNewObj fields => Some (NObj fields)
  end.

(** [!!v]: the value is truthy. *)
Definition truthy (v : value) : bool :=
  match v with
  | VPrim PUndef | VPrim PNull => false
  | VPrim (PBool b) => b
  | VPrim (PNum n) => negb (Z.eqb n 0)
  | VPrim (PStr s) => negb (String.eqb s "")
  | _ => true
  end.

(** [typeof v === "object"] (which holds of [null]). *)
Definition typeof_object (v : value) : bool :=
  match v with
  | VPrim PNull => true
  | VPrim _ => false
  | _ => true
  end.

Definition isArray (h : heap) (v : value) : bool :=
  match shape h v with
  | Some (NArr _) => true
  | _ => false
  end.

(** [a || b] on values. *)
Definition or_else (a b : value) : value := if truthy a then a else b.

(** *** Strings *)

Definition lower_ascii (c : ascii) : ascii :=
  let n := nat_of_ascii c in
  if ((65 <=? n) && (n <=? 90))%nat then ascii_of_nat (n + 32) else c.

(** [s.toLowerCase()], on the ASCII letters (other bytes are kept). *)
Fixpoint toLowerCase (s : string) : string :=
  match s with
  | EmptyString => EmptyString
  | String c r => String (lower_ascii c) (toLowerCase r)
  end.

(** [hay.includes(needle)] on strings. *)
Fixpoint includes (hay needle : string) : bool :=
  String.prefix needle hay
  || match hay with
     | EmptyString => false
     | String _ r => includes r needle
     end.

Definition startsWith (s p : string) : bool := String.prefix p s.

(** Number to string, as a template literal prints an integer. *)
Definition show_Z (z : Z) : string := NilZero.string_of_int (Z.to_int z).

(** The key of an array index, and the index a key denotes when it is the
    canonical decimal of one. *)
Definition index_key (i : nat) : string := NilEmpty.string_of_uint (Nat.to_uint i).

Definition key_index (k : string) : option nat :=
  match NilEmpty.uint_of_string k with
  | Some u => if String.eqb (index_key (Nat.of_uint u)) k then Some (Nat.of_uint u) else None
  | None => None
  end.

(** *** Property access *)

Fixpoint indexed {A : Type} (i : nat) (l : list A) : list (string * A) :=
  match l with
  | [] => []
  | x :: r => (index_key i, x) :: indexed (S i) r
  end.

Definition chars (s : string) : list value :=
  map (fun c => str (String c EmptyString)) (list_ascii_of_string s).

(** [Object.entries(v)] for a [v] that is neither [null] nor [undefined]
    (every call site guards its argument with [||] or a truthiness test). *)
Definition entries (h : heap) (v : value) : list (string * value) :=
  match v with
  | VPrim (PStr s) => indexed 0 (chars s)
  | VPrim _ => []
  | _ =>
    match shape h v with
    | Some (NArr items) => indexed 0 items
    | Some (NObj fields) => fields
    | None => []
    end
  end.

Definition keys (h : heap) (v : value) : list string := map fst (entries h v).

Definition get_field (fields : list (string * value)) (key : string) : value :=
  match find (fun kv => String.eqb (fst kv) key) fields with
  | Some kv => snd kv
  | None => undefined
  end.

Definition get_item (items : list value) (key : string) : value :=
  if String.eqb key "length" then num (Z.of_nat (length items))
  else match key_index key with
       | Some i => default undefined (items !! i)
       | None => undefined
       end.

(** [v[key]] for a [v] that is neither [null] nor [undefined]. *)
Definition get_prop (h : heap) (v : value) (key : string) : value :=
  match v with
  | VPrim (PStr s) => get_item (chars s) key
  | VPrim _ => undefined
  | _ =>
    match shape h v with
    | Some (NArr items) => get_item items key
    | Some (NObj fields) => get_field fields key
    | None => undefined
    end
  end.

Definition nullish (v : value) : bool :=
  match v with
  | VPrim PUndef | VPrim PNull => true
  | _ => false
  end.

(** [v?.[key]]. *)
Definition get_opt (h : heap) (v : value) (key : string) : value :=
  if nullish v then undefined else get_prop h v key.

(** *** Exceptions *)

(** The errors the pipeline raises, named after the place that raises them;
    [message] is the text of their [message] property. [External] is an error
    thrown by the network layer or by a library. *)
Inductive exn :=
| TypeError (what : string)
| RangeError
| External (msg : string)
| ParserTimeout
| HttpError (status : Z) (statusText : string)
| ContentTypeError (contentType : string) (body : string)
| BothFailed (parserMessage fallbackMessage : string).

Definition DEFAULT_TIMEOUT_MS : Z := 10000.

Definition nl : string := String (ascii_of_nat 10) EmptyString.

Definition message (e : exn) : string :=
  match e with
  | TypeError what => what
  | RangeError => "Maximum call stack size exceeded"
  | External msg => msg
  | ParserTimeout =>
      "SwaggerParser 解析超时 (" ++ show_Z ((DEFAULT_TIMEOUT_MS + 500) / 1000) ++ "s)"
  | HttpError status statusText => "HTTP " ++ show_Z status ++ ": " ++ statusText
  | ContentTypeError ct body =>
      "返回内容不是 JSON (Content-Type: " ++ ct ++ ")。内容预览: "
      ++ String.substring 0 100 body ++ "..."
  | BothFailed p f =>
      "SwaggerParser 和降级策略均失败。" ++ nl ++ "SwaggerParser: " ++ p ++ nl
      ++ "降级策略: " ++ f
  end.

Inductive result (A : Type) :=
| Ok (a : A)
| Throw (e : exn).
Arguments Ok {A} a.
Arguments Throw {A} e.

Definition bind {A B : Type} (m : result A) (k : A -> result B) : result B :=
  match m with
  | Ok a => k a
  | Throw e => Throw e
  end.

(** [v.key], which throws on [null] and [undefined]. *)
Definition member (h : heap) (v : value) (key : string) : result value :=
  if nullish v then Throw (TypeError ("Cannot read properties of null or undefined (reading '" ++ key ++ "')"))
  else Ok (get_prop h v key).

End JS.

Export JS.

Notation "'let*' x ':=' m 'in' k" := (JS.bind m (fun x => k))
  (at level 10, x name, m at level 100, k at level 200, only parsing).
Notation "'let*' ' p ':=' m 'in' k" := (JS.bind m (fun x => match x with p => k end))
  (at level 10, p pattern, m at level 100, k at level 200, only parsing).

(** ** Sanitizer: [sanitizeRecursive] *)

Module Sanitizer.

Definition truncated (maxDepth : Z) : value :=
  str ("[Truncated: >" ++ show_Z maxDepth ++ " levels]").

Definition circular : value := str "[Circular Ref]".

(** The loops of [sanitizeRecursive]: [obj.map(item => ...)] and the
    [for (const key in obj)] that fills [result], both visiting the members in
    order while the one [seen] set is handed from each visit to the next. *)
Section Traverse.

Variable each : value -> gset loc -> option (value * gset loc).

Fixpoint map_seen (items : list value) (seen : gset loc)
  : option (list value * gset loc) :=
  match items with
  | [] => Some ([], seen)
  | x :: r =>
    '(y, seen1) ← each x seen;
    '(ys, seen2) ← map_seen r seen1;
    Some (y :: ys, seen2)
  end.

Fixpoint forin_seen (fields : list (string * value)) (seen : gset loc)
  : option (list (string * value) * gset loc) :=
  match fields with
  | [] => Some ([], seen)
  | (key, x) :: r =>
    '(y, seen1) ← each x seen;
    '(ys, seen2) ← forin_seen r seen1;
    Some ((key, y) :: ys, seen2)
  end.

Definition members (n : node) (seen : gset loc) : option (value * gset loc) :=
  match n with
  | NArr items => '(r, seen') ← map_seen items seen; Some (VNewArr r, seen')
  | NObj fields => '(r, seen') ← forin_seen fields seen; Some (VNewObj r, seen')
  end.

End Traverse.

(** [sanitizeRecursive(obj, depth, maxDepth, seen)]. The [WeakSet] is the set
    of identities [seen]; the call returns its result together with the set
    as the call leaves it, since the callee's additions stay visible to the
    caller. [fuel] bounds the nesting of calls; [None] is "not finished within
    [fuel] nested calls". An object literal is never found in [seen] (it is
    reached once), and adding it changes no later membership test. *)
Fixpoint sanitizeRecursive (fuel : nat) (h : heap) (obj : value)
    (depth maxDepth : Z) (seen : gset loc) : option (value * gset loc) :=
  match fuel with
  | O => None
  | S fuel' =>
    if (maxDepth <? depth)%Z then Some (truncated maxDepth, seen)
    else
      let each := fun v s => sanitizeRecursive fuel' h v (depth + 1) maxDepth s in
      match obj with
      | VPrim _ => Some (obj, seen)
      | VRef l =>
        if decide (l ∈ seen) then Some (circular, seen)
        else members each (node_of h l) ({[l]} ∪ seen)
      | VNewArr items => members each (NArr items) seen
      | VNewObj fields => members each (NObj fields) seen
      end
  end.

(** Nested calls that [sanitizeRecursive(obj, depth, maxDepth)] can need. *)
Definition enough (depth maxDepth : Z) : nat := S (Z.to_nat (maxDepth + 1 - depth)).

(** A top-level call [sanitizeRecursive(obj, 0, maxDepth)]: depth 0 and a
    [WeakSet] of its own. *)
Definition sanitize (h : heap) (obj : value) (maxDepth : Z) : option value :=
  fst <$> sanitizeRecursive (enough 0 maxDepth) h obj 0 maxDepth ∅.

(** *** Positions *)

(** The [i]-th member of a value: the [i]-th item of an array, the value of
    the [i]-th field of an object. *)
Definition child (h : heap) (v : value) (i : nat) : option value :=
  match shape h v with
  | Some (NArr items) => items !! i
  | Some (NObj fields) => snd <$> fields !! i
  | None => None
  end.

Definition node_child (n : node) (i : nat) : option value :=
  match n with
  | NArr items => items !! i
  | NObj fields => snd <$> fields !! i
  end.

(** The value found by following [path] from [v]; the length of [path] is
    the depth of the position. *)
Fixpoint descend (h : heap) (v : value) (path : list nat) : option value :=
  match path with
  | [] => Some v
  | i :: p => c ← child h v i; descend h c p
  end.


(** The identities of the objects passed on the way to a position, the
    position itself excluded: its ancestors on the recursion path. *)
Fixpoint ancestors (h : heap) (v : value) (path : list nat) : list loc :=
  match path with
  | [] => []
  | i :: p =>
    match child h v i with
    | Some c => match v with VRef l => [l] | _ => [] end ++ ancestors h c p
    | None => []
    end
  end.

(** The marking rule in the words of the specification: within the depth
    bound, the output carries the circular-reference marker at the position
    of an object exactly when that object is one of the position's
    ancestors. *)
Definition marks_ancestors_only (h : heap) (obj : value) (maxDepth : Z) : Prop :=
  forall out path l u,
    sanitize h obj maxDepth = Some out ->
    (Z.of_nat (length path) <= maxDepth)%Z ->
    descend h obj path = Some (VRef l) ->
    descend ∅ out path = Some u ->
    (u = circular <-> In l (ancestors h obj path)).

(** An object [{ a: shared, b: shared }] whose two fields hold the same
    object [{ x: 1 }]. *)
Definition siblings : heap :=
  {[ 0%nat := NObj [("a", VRef 1%nat); ("b", VRef 1%nat)];
     1%nat := NObj [("x", num 1)] ]}.

(** An object whose field [self] holds the object itself. *)
Definition selfloop : heap := {[ 0%nat := NObj [("id", num 7); ("self", VRef 0%nat)] ]}.

(** Arrays nested four deep around a number. *)
Definition nested : value := VNewArr [VNewArr [VNewArr [VNewArr [num 5]]]; num 9].

End Sanitizer.

(** ** Mock synthesis: [generateMockData] *)

Module Mock.

(** [v === s] for a string [s]. *)
Definition is_str (v : value) (s : string) : bool :=
  match v with
  | VPrim (PStr s') => String.eqb s' s
  | _ => false
  end.

(** [v > 0] for the [length] of a value: a number or nothing at all in a
    parsed document (a field named "length" that holds a string or an object
    is outside the model and compares as false). *)
Definition gt_zero (v : value) : bool :=
  match v with
  | VPrim (PNum n) => (0 <? n)%Z
  | VPrim (PBool b) => b
  | _ => false
  end.

(** [generateMockData(schema)]. [fuel] bounds the nesting of calls ([None]:
    not finished within [fuel] nested calls, as happens with a schema that
    contains itself). The loop [for (const key in schema.properties)] visits
    the members of [schema.properties] in order and assigns each key once. *)
Fixpoint generateMockData (fuel : nat) (h : heap) (schema : value) : option value :=
  match fuel with
  | O => None
  | S fuel' =>
    if negb (truthy schema) then Some (VPrim PNull)
    else if truthy (get_prop h schema "example") then Some (get_prop h schema "example")
    else
      let type := get_prop h schema "type" in
      if is_str type "object" then
        if truthy (get_prop h schema "properties") then
          fields ← mapM (fun kv => r ← generateMockData fuel' h (snd kv); Some (fst kv, r))
                        (entries h (get_prop h schema "properties"));
          Some (VNewObj fields)
        else Some (VNewObj [])
      else if is_str type "array" then
        item ← generateMockData fuel' h (get_prop h schema "items");
        Some (VNewArr [item])
      else if is_str type "string" then
        if is_str (get_prop h schema "format") "date-time" then Some (str "2024-01-01T00:00:00Z")
        else if truthy (get_prop h schema "enum")
                && gt_zero (get_prop h (get_prop h schema "enum") "length")
        then Some (get_prop h (get_prop h schema "enum") "0")
        else Some (str "string_value")
      else if is_str type "integer" || is_str type "number" then Some (num 0)
      else if is_str type "boolean" then Some (VPrim (PBool true))
      else Some (VPrim PNull)
  end.

(** The rule in the words of the specification: the schema's example is
    what the synthesis returns. *)
Definition returns_example (h : heap) (schema : value) : Prop :=
  forall fuel, generateMockData (S fuel) h schema = Some (get_prop h schema "example").

(** [{ type: "boolean", example: false }] *)
Definition schema_false : heap :=
  {[ 0%nat := NObj [("type", str "boolean"); ("example", VPrim (PBool false))] ]}.

(** [{ type: "string", example: { x: 1 } }] *)
Definition schema_example : heap :=
  {[ 0%nat := NObj [("type", str "string"); ("example", VRef 1%nat)];
     1%nat := NObj [("x", num 1)] ]}.

(** [{ type: "object", properties: { id: { type: "integer" }, name: { type: "string" } } }] *)
Definition schema_object : heap :=
  {[ 0%nat := NObj [("type", str "object"); ("properties", VRef 1%nat)];
     1%nat := NObj [("id", VRef 2%nat); ("name", VRef 3%nat)];
     2%nat := NObj [("type", str "integer")];
     3%nat := NObj [("type", str "string")] ]}.

(** [{ type: "string", enum: ["A", "B"] }] *)
Definition schema_enum : heap :=
  {[ 0%nat := NObj [("type", str "string"); ("enum", VRef 1%nat)];
     1%nat := NArr [str "A"; str "B"] ]}.

End Mock.

(** ** Normalizer: [extractParameterSchema], [getOperations], [simplifyPaths] *)

Module Normalizer.

Definition HTTP_METHOD_ORDER : list string :=
  ["get"; "post"; "put"; "delete"; "patch"; "options"; "head"; "trace"].

(** [HTTP_METHODS.has(method)] *)
Definition HTTP_METHODS_has (method : string) : bool :=
  existsb (String.eqb method) HTTP_METHOD_ORDER.

Definition is_undefined (v : value) : bool :=
  match v with
  | VPrim PUndef => true
  | _ => false
  end.

(** A field set by [if (cond) schema.key = v]. *)
Definition field_if (cond : bool) (key : string) (v : value) : list (string * value) :=
  if cond then [(key, v)] else [].

Definition extractParameterSchema (h : heap) (param : value) : value :=
  if negb (truthy param) || negb (typeof_object param) then undefined
  else if truthy (get_prop h param "schema") then get_prop h param "schema"
  else if truthy (get_prop h param "type") then
    VNewObj ([("type", get_prop h param "type")]
             ++ field_if (truthy (get_prop h param "format")) "format" (get_prop h param "format")
             ++ field_if (truthy (get_prop h param "items")) "items" (get_prop h param "items")
             ++ field_if (truthy (get_prop h param "enum")) "enum" (get_prop h param "enum")
             ++ field_if (negb (is_undefined (get_prop h param "default"))) "default"
                  (get_prop h param "default"))
  else undefined.

Definition getOperations (h : heap) (pathItem : value) : list value :=
  if negb (truthy pathItem) || negb (typeof_object pathItem) then []
  else
    map snd
      (List.filter (fun kv => HTTP_METHODS_has (fst kv) && truthy (snd kv) && typeof_object (snd kv))
              (entries h pathItem)).

(** [l.map(f)] for an [f] that may throw: the first exception ends the loop. *)
Fixpoint map_result {A B : Type} (f : A -> result B) (l : list A) : result (list B) :=
  match l with
  | [] => Ok []
  | x :: r =>
    let* y := f x in
    let* ys := map_result f r in
    Ok (y :: ys)
  end.

(** The items of an array value. *)
Definition items_of (h : heap) (v : value) : option (list value) :=
  match shape h v with
  | Some (NArr items) => Some items
  | _ => None
  end.

(** One element of [op.parameters?.map(...)]. *)
Definition simplifyParameter (h : heap) (p : value) : result value :=
  let* name := member h p "name" in
  let* in_ := member h p "in" in
  let* required := member h p "required" in
  let* description := member h p "description" in
  Ok (VNewObj [("name", name); ("in", in_); ("required", required);
               ("description", description);
               ("schema", extractParameterSchema h p)]).

(** [op.parameters?.map(...) || []] *)
Definition simplifyParameters (h : heap) (op : value) : result value :=
  let parameters := get_prop h op "parameters" in
  if nullish parameters then Ok (VNewArr [])
  else
    match items_of h parameters with
    | Some items =>
      let* r := map_result (simplifyParameter h) items in
      Ok (VNewArr r)
    | None => Throw (TypeError "op.parameters?.map is not a function")
    end.

(** The request body: [op.requestBody] of the modern dialect, else the
    legacy parameter whose [in] is "body", else [undefined]. *)
Definition simplifyRequestBody (h : heap) (op : value) : value :=
  let rb := get_prop h op "requestBody" in
  if truthy rb && typeof_object rb then
    VNewObj [("required", get_prop h rb "required");
             ("description", get_prop h rb "description");
             ("content", get_prop h rb "content")]
  else
    let bodyParam :=
      match items_of h (get_prop h op "parameters") with
      | Some items =>
        default undefined
          (find (fun p => truthy p && typeof_object p && Mock.is_str (get_prop h p "in") "body")
                items)
      | None => undefined
      end in
    if truthy bodyParam then
      VNewObj [("required", get_prop h bodyParam "required");
               ("description", get_prop h bodyParam "description");
               ("schema", extractParameterSchema h bodyParam)]
    else undefined.

(** The body of the [reduce] over [op.responses]: the descriptor stored
    under a status code. *)
Definition simplifyResponse (h : heap) (resp : value) : result value :=
  let* description := member h resp "description" in
  let* content := member h resp "content" in
  let* schema := member h resp "schema" in
  Ok (VNewObj [("description", or_else description (str ""));
               ("content", content);
               ("schema", schema)]).

(** A loop that assigns [f value] under each key of [fields] in turn. *)
Definition map_fields (f : value -> result value) (fields : list (string * value))
  : result (list (string * value)) :=
  map_result (fun kv => let* y := f (snd kv) in Ok (fst kv, y)) fields.

Definition simplifyResponses (h : heap) (op : value) : result value :=
  let* r := map_fields (simplifyResponse h)
              (entries h (or_else (get_prop h op "responses") (VNewObj []))) in
  Ok (VNewObj r).

(** The object literal assigned to [simplified[pathKey][method]]. *)
Definition simplifyOperation (h : heap) (op : value) : result value :=
  let* parameters := simplifyParameters h op in
  let requestBody := simplifyRequestBody h op in
  let* responses := simplifyResponses h op in
  Ok (VNewObj [("summary", or_else (get_prop h op "summary") (str ""));
               ("description", or_else (get_prop h op "description") (str ""));
               ("operationId", or_else (get_prop h op "operationId") (str ""));
               ("tags", or_else (get_prop h op "tags") (VNewArr []));
               ("parameters", parameters);
               ("requestBody", requestBody);
               ("responses", responses)]).

(** The inner loop of [simplifyPaths] over the entries of a path item. *)
Definition simplifyPathItem (h : heap) (pathValue : value) : result value :=
  let* r := map_fields (simplifyOperation h)
              (List.filter (fun kv => HTTP_METHODS_has (fst kv)
                                 && typeof_object (snd kv) && negb (nullish (snd kv)))
                      (entries h pathValue)) in
  Ok (VNewObj r).

Definition simplifyPaths (h : heap) (paths : value) : result value :=
  let* r := map_fields (simplifyPathItem h)
              (List.filter (fun kv => truthy (snd kv)) (entries h paths)) in
  Ok (VNewObj r).

(** The response descriptors of a normalised document, path by path and
    operation by operation. *)
Definition descriptors_of (simplified : value) : list value :=
  flat_map (fun path =>
      flat_map (fun op => map snd (entries ∅ (get_prop ∅ (snd op) "responses")))
               (entries ∅ (snd path)))
    (entries ∅ simplified).

(** The responses of the document that [simplifyPaths] visits, in the same
    order, and the descriptor the [reduce] stores for one of them. *)
Definition responses_of (h : heap) (paths : value) : list value :=
  flat_map (fun path =>
      flat_map (fun op =>
          map snd (entries h (or_else (get_prop h (snd op) "responses") (VNewObj []))))
        (List.filter (fun kv => HTTP_METHODS_has (fst kv)
                           && typeof_object (snd kv) && negb (nullish (snd kv)))
                (entries h (snd path))))
    (List.filter (fun kv => truthy (snd kv)) (entries h paths)).

Definition descriptor (h : heap) (resp : value) : value :=
  VNewObj [("description", or_else (get_prop h resp "description") (str ""));
           ("content", get_prop h resp "content");
           ("schema", get_prop h resp "schema")].

Definition populated (v : value) : bool := negb (is_undefined v).

(** The rule in the words of the specification: a descriptor is a record
    [{description, content, schema}] with exactly one of [content] and
    [schema] populated. *)
Definition one_of_content_schema (d : value) : bool :=
  match d with
  | VNewObj [("description", _); ("content", c); ("schema", s)] =>
    xorb (populated c) (populated s)
  | _ => false
  end.

(** A legacy document [{ "/ping": { get: { responses: { "204": { description:
    "No Content" } } } } }]. *)
Definition doc_no_content : heap :=
  {[ 0%nat := NObj [("/ping", VRef 1%nat)];
     1%nat := NObj [("get", VRef 2%nat)];
     2%nat := NObj [("responses", VRef 3%nat)];
     3%nat := NObj [("204", VRef 4%nat)];
     4%nat := NObj [("description", str "No Content")] ]}.

(** [{ "/p": { get: { responses: { "200": { description: "ok", content: c,
    schema: s } } } } }]: a response that carries both. *)
Definition doc_both : heap :=
  {[ 0%nat := NObj [("/p", VRef 1%nat)];
     1%nat := NObj [("get", VRef 2%nat)];
     2%nat := NObj [("responses", VRef 3%nat)];
     3%nat := NObj [("200", VRef 4%nat)];
     4%nat := NObj [("description", str "ok"); ("content", VRef 5%nat);
                    ("schema", VRef 6%nat)];
     5%nat := NObj [("application/json", VRef 7%nat)];
     6%nat := NObj [("type", str "string")];
     7%nat := NObj [("schema", VRef 6%nat)] ]}.

Definition simplified_both : value :=
  VNewObj
    [("/p", VNewObj
      [("get", VNewObj
        [("summary", str ""); ("description", str ""); ("operationId", str "");
         ("tags", VNewArr []); ("parameters", VNewArr []);
         ("requestBody", undefined);
         ("responses", VNewObj
           [("200", VNewObj [("description", str "ok");
                             ("content", VRef 5%nat);
                             ("schema", VRef 6%nat)])])])])].

End Normalizer.

(** ** Acquisition: [fetchRawSwagger], [getSwaggerApi] *)

Module Net.

(** A parsed document: its objects and its root value. *)
Record document := Document { doc_heap : heap; doc_root : value }.

(** A promise of the network or of a library, once settled: rejections carry
    the [message] of the error. *)
Inductive settled (A : Type) :=
| Resolved (a : A)
| Rejected (msg : string).
Arguments Resolved {A} a.
Arguments Rejected {A} msg.

Definition settle {A : Type} (s : settled A) : result A :=
  match s with
  | Resolved a => Ok a
  | Rejected msg => Throw (External msg)
  end.

(** What [fetchRawSwagger] reads of a [Response]: [ok], [status],
    [statusText], [headers.get("content-type")] ([None] for [null]) and the
    outcomes of [text()] and [json()]. *)
Record response := Response {
  ok : bool;
  status : Z;
  statusText : string;
  content_type : option string;
  text : settled string;
  json : settled document
}.

(** [SwaggerParser.dereference(url)] raced against the timer of
    [withTimeout]: settled in time, or still pending when the timer fires. *)
Inductive parsing :=
| Settled (s : settled document)
| Pending.

(** The requests a call makes, and the stages of the pipeline it runs. *)
Inductive event :=
| Dereference (url : string)
| Fetch (url : string)
| Normalize
| MockSynthesis
| Sanitize
| TypeSynthesis.

(** A computation that logs events and may throw. *)
Definition M (A : Type) : Type := list event * result A.

Definition ret {A : Type} (a : A) : M A := ([], Ok a).

Definition tell (e : event) : M unit := ([e], Ok tt).

Definition lift {A : Type} (r : result A) : M A := ([], r).

Definition bindM {A B : Type} (m : M A) (k : A -> M B) : M B :=
  match m with
  | (log, Ok a) => let (log', r) := k a in ((log ++ log')%list, r)
  | (log, Throw e) => (log, Throw e)
  end.

(** [try { m } catch (e) { handler e }] *)
Definition catch {A : Type} (m : M A) (handler : exn -> M A) : M A :=
  match m with
  | (log, Ok a) => (log, Ok a)
  | (log, Throw e) => let (log', r) := handler e in ((log ++ log')%list, r)
  end.

Definition fetches (log : list event) : nat :=
  length (List.filter (fun e => match e with Fetch _ => true | _ => false end) log).

Definition stages (log : list event) : list event :=
  List.filter (fun e => match e with Dereference _ | Fetch _ => false | _ => true end) log.

(** A computation that makes no request. *)
Definition quiet {A : Type} (m : M A) : Prop := fetches (fst m) = 0%nat.

Section Network.

Variable dereference : string -> parsing.
Variable fetch : string -> settled response.

(** [withTimeout(SwaggerParser.dereference(url), DEFAULT_TIMEOUT_MS, ...)] *)
Definition dereferenced (url : string) : M document :=
  bindM (tell (Dereference url)) (fun _ =>
  lift match dereference url with
       | Settled s => settle s
       | Pending => Throw ParserTimeout
       end).

(** [fetchRawSwagger(url)]; an abort by the timer is a rejection of [fetch]
    or of the body read under way. *)
Definition fetchRawSwagger (url : string) : M document :=
  bindM (tell (Fetch url)) (fun _ =>
  lift (let* response := settle (fetch url) in
        if negb (ok response) then Throw (HttpError (status response) (statusText response))
        else
          match content_type response with
          | Some contentType =>
            if negb (String.eqb contentType "")
               && negb (includes (toLowerCase contentType) "json")
            then
              let* body := settle (text response) in
              Throw (ContentTypeError contentType body)
            else settle (json response)
          | None => settle (json response)
          end)).

Definition getSwaggerApi (url : string) (use_fallback : bool) : M document :=
  catch (dereferenced url) (fun parseError =>
    if use_fallback then
      catch (fetchRawSwagger url) (fun fallbackError =>
        lift (Throw (BothFailed (message parseError) (message fallbackError))))
    else lift (Throw parseError)).

End Network.

(** The rule on the content type as the specification words it: the
    content-type error is the outcome exactly when a Content-Type header is
    declared and its value does not contain "json" in any letter case. *)
Definition is_content_type_error {A : Type} (r : result A) : Prop :=
  exists contentType body, r = Throw (ContentTypeError contentType body).

Definition content_type_rule (resp : response) (r : result document) : Prop :=
  is_content_type_error r <->
  exists contentType,
    content_type resp = Some contentType
    /\ includes (toLowerCase contentType) "json" = false.

Definition empty_document : document := Document ∅ (VNewObj []).

(** A 404 answered with an HTML page. *)
Definition not_found_page : response :=
  Response false 404 "Not Found" (Some "text/html")
           (Resolved "<html>not found</html>") (Rejected "Unexpected token <").

(** A 200 whose Content-Type header is declared with an empty value. *)
Definition empty_content_type : response :=
  Response true 200 "OK" (Some "") (Resolved "{}") (Resolved empty_document).

(** A 200 that declares HTML. *)
Definition html_page : response :=
  Response true 200 "OK" (Some "Text/HTML; charset=utf-8")
           (Resolved "<html>hello</html>") (Rejected "Unexpected token <").

(** A resolver that is still pending when the timer fires, and a raw read
    answered with an HTML page. *)
Definition never_resolves (url : string) : parsing := Pending.

Definition answers_html (url : string) : settled response := Resolved html_page.

(** A 200 that declares HTML and whose body cannot be read to the end. *)
Definition aborted_page : response :=
  Response true 200 "OK" (Some "text/html")
           (Rejected "This operation was aborted") (Rejected "This operation was aborted").

(** A 200 without a Content-Type header. *)
Definition no_content_type : response :=
  Response true 200 "OK" None (Resolved "{}") (Resolved empty_document).

End Net.

Notation "'let!' x ':=' m 'in' k" := (Net.bindM m (fun x => k))
  (at level 10, x name, m at level 100, k at level 200, only parsing).
Notation "'let!' ' p ':=' m 'in' k" := (Net.bindM m (fun x => match x with p => k end))
  (at level 10, p pattern, m at level 100, k at level 200, only parsing).

(** ** The [read_swagger_api] tool *)

Module Handler.
Import Net Normalizer Mock Sanitizer.

(** [parsed.data] of [ReadSwaggerApiArgsSchema]: the arguments after
    validation, defaults filled in. *)
Record args := Args {
  url : string;
  use_fallback : bool;
  path_pattern : option string;
  tag : option string;
  generate_ts : bool;
  generate_mock : bool;
  max_depth : Z;
  limit_paths : Z;
  limit_ops : Z
}.

Definition defaults (url : string) : args :=
  Args url true None None true false 20 50 200.

(** The ranges [ReadSwaggerApiArgsSchema] accepts for the numbers. *)
Definition accepted (a : args) : bool :=
  ((1 <=? max_depth a) && (max_depth a <=? 100)
   && (0 <=? limit_paths a) && (limit_paths a <=? 10000)
   && (0 <=? limit_ops a) && (limit_ops a <=? 10000))%Z.

(** *** The filter loop *)

(** The string an [if (x)] on an optional string lets through: set and not
    empty. *)
Definition given (o : option string) : option string :=
  match o with
  | Some s => if String.eqb s "" then None else Some s
  | None => None
  end.

(** [v?.toLowerCase().includes(lowerPattern)], as a condition. *)
Definition lower_includes (v : value) (lowerPattern : string) : result bool :=
  match v with
  | VPrim PUndef | VPrim PNull => Ok false
  | VPrim (PStr s) => Ok (includes (toLowerCase s) lowerPattern)
  | _ => Throw (TypeError "toLowerCase is not a function")
  end.

(** The loop that sets [inMeta], left at the first operation that matches. *)
Fixpoint inMeta (h : heap) (ops : list value) (lowerPattern : string) : result bool :=
  match ops with
  | [] => Ok false
  | op :: r =>
    let* inSummary := lower_includes (get_prop h op "summary") lowerPattern in
    if inSummary then Ok true
    else
      let* inDescription := lower_includes (get_prop h op "description") lowerPattern in
      if inDescription then Ok true else inMeta h r lowerPattern
  end.

(** [op.tags && op.tags.includes(tag)], as a condition: [includes] of an
    array compares the elements with [tag], [includes] of a string looks for
    [tag] inside it, and no other value has the method. *)
Definition tags_include (h : heap) (tags : value) (tag : string) : result bool :=
  if negb (truthy tags) then Ok false
  else
    match tags with
    | VPrim (PStr s) => Ok (includes s tag)
    | _ =>
      match items_of h tags with
      | Some items => Ok (existsb (fun x => is_str x tag) items)
      | None => Throw (TypeError "op.tags.includes is not a function")
      end
    end.

(** The loop that sets [tagMatch], left at the first operation that lists
    the tag. *)
Fixpoint tagMatch (h : heap) (ops : list value) (tag : string) : result bool :=
  match ops with
  | [] => Ok false
  | op :: r =>
    let* listed := tags_include h (get_prop h op "tags") tag in
    if listed then Ok true else tagMatch h r tag
  end.

(** Whether one entry with a truthy value goes into [filteredPaths]. *)
Definition matches (h : heap) (path_pattern tag : option string)
    (pathKey : string) (pathValue : value) : result bool :=
  let* patternMatch :=
    match given path_pattern with
    | Some pattern =>
      let lowerPattern := toLowerCase pattern in
      let inUrl := includes (toLowerCase pathKey) lowerPattern in
      let* inMeta := inMeta h (getOperations h pathValue) lowerPattern in
      Ok (inUrl || inMeta)
    | None => Ok true
    end in
  if negb patternMatch then Ok false
  else
    match given tag with
    | Some t => tagMatch h (getOperations h pathValue) t
    | None => Ok true
    end.

(** The loop over [Object.entries(paths)], carrying [filteredPaths] and
    [matchCount]. *)
Fixpoint filter_loop (h : heap) (path_pattern tag : option string)
    (ents : list (string * value)) (filteredPaths : list (string * value))
    (matchCount : Z) : result (list (string * value) * Z) :=
  match ents with
  | [] => Ok (filteredPaths, matchCount)
  | (pathKey, pathValue) :: r =>
    if negb (truthy pathValue) then filter_loop h path_pattern tag r filteredPaths matchCount
    else
      let* keep := matches h path_pattern tag pathKey pathValue in
      if keep then
        filter_loop h path_pattern tag r (filteredPaths ++ [(pathKey, pathValue)])
                    (matchCount + 1)
      else filter_loop h path_pattern tag r filteredPaths matchCount
  end.

(** [api.paths || {}] and the loop over it. *)
Definition filterPaths (h : heap) (api : value) (path_pattern tag : option string)
  : result (list (string * value) * Z) :=
  let* paths := member h api "paths" in
  filter_loop h path_pattern tag (entries h (or_else paths (VNewObj []))) [] 0.

(** *** The filter in the words of the specification *)












(** *** After the filter *)

(** What the tool returns: a text with its error flag, or the payload: the
    text [JSON.stringify(json, null, 2)] followed by [appended], no error
    flag. *)
Inductive tool_result :=
| Text (isError : bool) (text : string)
| Payload (json : value) (appended : string).

Definition shown (o : option string) : string := default "无" (given o).

Definition no_match (a : args) : string :=
  "未找到匹配的接口。" ++ nl ++ "path_pattern: " ++ shown (path_pattern a) ++ nl
  ++ "tag: " ++ shown (tag a) ++ nl ++ nl
  ++ "请尝试使用 list_controller_tags 查看可用模块，或检查关键词。".

Definition failure (e : exn) : string :=
  "操作失败: " ++ message e ++ nl ++ "请检查 URL 是否正确或服务是否可用。".

Definition optional (o : option string) : value :=
  match o with
  | Some s => str s
  | None => undefined
  end.

(** [v.key = x] on a literal that has no such key yet. *)
Definition assign (v : value) (key : string) (x : value) : value :=
  match v with
  | VNewObj fields => VNewObj (fields ++ [(key, x)])
  | _ => v
  end.

(** A loop that replaces each member of an object literal. *)
Definition map_members (f : value -> result value) (v : value) : result value :=
  match v with
  | VNewObj fields => let* r := map_fields f fields in Ok (VNewObj r)
  | _ => Ok v
  end.

Definition overflow {A : Type} (o : option A) : result A :=
  match o with
  | Some a => Ok a
  | None => Throw RangeError
  end.

Section Tool.

Variable dereference : string -> parsing.
Variable fetch : string -> settled response.
(** [compile(tempSchema, "API_Definitions", ...)] of json-schema-to-typescript. *)
Variable compile : heap -> value -> settled string.
(** The text a template literal gives a value that is not a string. *)
Variable template : heap -> value -> string.
(** [new URL(url).protocol.replace(":", "")] *)
Variable url_scheme : string -> string.
(** The nesting of calls the engine allows before it throws a RangeError. *)
Variable stack : nat.

Definition template_text (h : heap) (v : value) : string :=
  match v with
  | VPrim (PStr s) => s
  | _ => template h v
  end.

Definition baseUrl (h : heap) (api : value) (url : string) : value :=
  if truthy (get_prop h api "host") then
    let schemes := get_prop h api "schemes" in
    let scheme :=
      if isArray h schemes && gt_zero (get_prop h schemes "length")
      then template_text h (get_prop h schemes "0")
      else url_scheme url in
    str (scheme ++ "://" ++ template_text h (get_prop h api "host")
         ++ template_text h (or_else (get_prop h api "basePath") (str "")))
  else or_else (get_opt h (get_opt h (get_prop h api "servers") "0") "url") (str "").

(** The body of the mock loop for one normalised operation. *)
Definition add_mock (h : heap) (op : value) : result value :=
  let* responses := member h op "responses" in
  let successCode :=
    default "200" (find (fun c => startsWith c "2") (keys h (or_else responses (VNewObj [])))) in
  let* respObj := member h responses successCode in
  if truthy respObj then
    let content := get_prop h respObj "content" in
    let mediaType :=
      if truthy content then default undefined (str <$> head (keys h content))
      else undefined in
    let schema :=
      match mediaType with
      | VPrim (PStr m) =>
        if truthy mediaType then get_opt h (get_opt h content m) "schema"
        else get_prop h respObj "schema"
      | _ => get_prop h respObj "schema"
      end in
    if truthy schema then
      let* mock := overflow (generateMockData stack h schema) in
      Ok (assign op "mock_response" mock)
    else Ok op
  else Ok op.

Definition add_mocks (h : heap) (simplifiedPaths : value) : result value :=
  map_members (map_members (add_mock h)) simplifiedPaths.

(** The appended type text: nothing without definitions, the generated
    types, or the comment that reports why generation failed. *)
Definition appended_types (h : heap) (api : value) : M string :=
  let definitions :=
    or_else (get_opt h (get_prop h api "components") "schemas")
            (get_prop h api "definitions") in
  if truthy definitions then
    let tempSchema :=
      VNewObj [("definitions", definitions);
               ("components", VNewObj [("schemas", definitions)]);
               ("type", str "object");
               ("additionalProperties", VPrim (PBool false))] in
    let! _ := tell TypeSynthesis in
    match compile h tempSchema with
    | Resolved ts =>
      ret (nl ++ nl ++ "/* ----- Generated TypeScript Definitions ----- */" ++ nl ++ ts)
    | Rejected msg => ret (nl ++ nl ++ "/* [TS Generation Error]: " ++ msg ++ " */")
    end
  else ret "".

(** The object [result] built from the filtered, normalised paths. *)
Definition build_result (a : args) (h : heap) (api : value) (matchCount : Z)
    (simplifiedPaths : value) : value :=
  VNewObj [("_meta",
            VNewObj [("url", str (url a));
                     ("filtered_count", num matchCount);
                     ("filters",
                      VNewObj [("path_pattern", optional (path_pattern a));
                               ("tag", optional (tag a))])]);
           ("baseUrl", baseUrl h api (url a));
           ("paths", simplifiedPaths)].

(** The [read_swagger_api] branch of the tool-call handler, from the
    validated arguments to the value it returns, inside its [try]. *)
Definition read_swagger_api_body (a : args) : M tool_result :=
  let! api := getSwaggerApi dereference fetch (url a) (use_fallback a) in
  let h := doc_heap api in
  let! '(filteredPaths, matchCount) :=
    lift (filterPaths h (doc_root api) (path_pattern a) (tag a)) in
  if (matchCount =? 0)%Z then ret (Text false (no_match a))
  else
    let! _ := tell Normalize in
    let! simplifiedPaths := lift (simplifyPaths h (VNewObj filteredPaths)) in
    let! simplifiedPaths :=
      if generate_mock a then
        let! _ := tell MockSynthesis in lift (add_mocks h simplifiedPaths)
      else ret simplifiedPaths in
    let result := build_result a h (doc_root api) matchCount simplifiedPaths in
    let! _ := tell Sanitize in
    let! safeResult := lift (overflow (sanitize h result 30)) in
    let! appended :=
      if generate_ts a then appended_types h (doc_root api) else ret "" in
    ret (Payload safeResult appended).

(** The handler with its [catch]: an exception becomes a text with the
    error flag. *)
Definition read_swagger_api (a : args) : list event * tool_result :=
  match read_swagger_api_body a with
  | (log, Ok r) => (log, r)
  | (log, Throw e) => (log, Text true (failure e))
  end.

End Tool.

(** *** Documents and arguments of the examples *)

(** The legacy document of the specification: host [api.example.com], base
    path [/v1], scheme [https], one path [/ping] tagged [Health]. *)
Definition ping_document : document :=
  Document
    {[ 0%nat := NObj [("swagger", str "2.0"); ("host", str "api.example.com");
                      ("basePath", str "/v1"); ("schemes", VRef 1%nat);
                      ("paths", VRef 2%nat)];
       1%nat := NArr [str "https"];
       2%nat := NObj [("/ping", VRef 3%nat)];
       3%nat := NObj [("get", VRef 4%nat)];
       4%nat := NObj [("summary", str "Ping"); ("tags", VRef 5%nat)];
       5%nat := NArr [str "Health"] ]}
    (VRef 0%nat).

(** A document with two paths and three operations. *)
Definition two_paths_document : document :=
  Document
    {[ 0%nat := NObj [("openapi", str "3.0.0"); ("paths", VRef 1%nat)];
       1%nat := NObj [("/users", VRef 2%nat); ("/orders", VRef 3%nat)];
       2%nat := NObj [("get", VRef 4%nat); ("post", VRef 5%nat)];
       3%nat := NObj [("get", VRef 6%nat)];
       4%nat := NObj [("summary", str "List users")];
       5%nat := NObj [("summary", str "Create a user")];
       6%nat := NObj [("summary", str "List orders")] ]}
    (VRef 0%nat).


Definition serves (d : document) (url : string) : parsing := Settled (Resolved d).

Definition unreachable (url : string) : settled response := Rejected "fetch failed".

Definition no_types (h : heap) (schema : value) : settled string := Resolved "".

Definition plain (h : heap) (v : value) : string := "".

Definition https (url : string) : string := "https".

(** The tool on a document that resolves at once. *)
Definition run (d : document) (a : args) : list event * tool_result :=
  read_swagger_api (serves d) unreachable no_types plain https 64 a.

(** A legacy document whose two operations answer with the same schema
    object, as two references to one definition do once resolved. *)
Definition shared_schema_document : document :=
  Document
    {[ 0%nat := NObj [("swagger", str "2.0"); ("paths", VRef 1%nat)];
       1%nat := NObj [("/a", VRef 2%nat); ("/b", VRef 3%nat)];
       2%nat := NObj [("get", VRef 4%nat)];
       3%nat := NObj [("get", VRef 5%nat)];
       4%nat := NObj [("responses", VRef 6%nat)];
       5%nat := NObj [("responses", VRef 7%nat)];
       6%nat := NObj [("200", VRef 8%nat)];
       7%nat := NObj [("200", VRef 9%nat)];
       8%nat := NObj [("description", str "ok"); ("schema", VRef 10%nat)];
       9%nat := NObj [("description", str "ok"); ("schema", VRef 10%nat)];
       10%nat := NObj [("type", str "string")] ]}
    (VRef 0%nat).

(** The arguments with another [max_depth], and with other limits. *)
Definition with_max_depth (k : Z) (a : args) : args :=
  Args (url a) (use_fallback a) (path_pattern a) (tag a) (generate_ts a)
       (generate_mock a) k (limit_paths a) (limit_ops a).

Definition with_limits (paths ops : Z) (a : args) : args :=
  Args (url a) (use_fallback a) (path_pattern a) (tag a) (generate_ts a)
       (generate_mock a) (max_depth a) paths ops.



(** A document with an entry whose value is [null]. *)
Definition null_entry_document : document :=
  Document
    {[ 0%nat := NObj [("paths", VRef 1%nat)];
       1%nat := NObj [("/x", VPrim PNull); ("/y", VRef 2%nat)];
       2%nat := NObj [("get", VRef 3%nat)];
       3%nat := NObj [("summary", str "Y")] ]}
    (VRef 0%nat).

(** [read_swagger_api] with [tag: "Health"] and [max_depth: 1]. *)
Definition shallow_args : args :=
  Args "https://api.example.com/docs" true None (Some "Health") false false 1 50 200.

(** [read_swagger_api] with [limit_paths: 1] and [limit_ops: 1]. *)
Definition limited_args : args :=
  Args "https://api.example.com/docs" true None None false false 20 1 1.

(** [read_swagger_api] with a keyword that matches nothing. *)
Definition unmatched_args : args :=
  Args "https://api.example.com/docs" true (Some "zzz") None true true 20 50 200.

(** A normalised operation that has only a summary. *)
Definition bare_operation (summary : string) (tags : list value) : value :=
  VNewObj [("summary", str summary); ("description", str ""); ("operationId", str "");
           ("tags", VNewArr tags); ("parameters", VNewArr []);
           ("requestBody", undefined); ("responses", VNewObj [])].

(** The payload the tool returns for [ping_document] and [shallow_args]. *)
Definition ping_payload : value :=
  VNewObj
    [("_meta",
      VNewObj [("url", str "https://api.example.com/docs");
               ("filtered_count", num 1);
               ("filters", VNewObj [("path_pattern", undefined);
                                    ("tag", str "Health")])]);
     ("baseUrl", str "https://api.example.com/v1");
     ("paths",
      VNewObj [("/ping", VNewObj [("get", bare_operation "Ping" [str "Health"])])])].

(** The payload the tool returns for [two_paths_document] and
    [limited_args]. *)
Definition two_paths_payload : value :=
  VNewObj
    [("_meta",
      VNewObj [("url", str "https://api.example.com/docs");
               ("filtered_count", num 2);
               ("filters", VNewObj [("path_pattern", undefined);
                                    ("tag", undefined)])]);
     ("baseUrl", str "");
     ("paths",
      VNewObj [("/users", VNewObj [("get", bare_operation "List users" []);
                                   ("post", bare_operation "Create a user" [])]);
               ("/orders", VNewObj [("get", bare_operation "List orders" [])])])].

(** The payload of a result, when it has one. *)
Definition payload_of (r : list event * tool_result) : option value :=
  match snd r with
  | Payload json _ => Some json
  | Text _ _ => None
  end.

(** [read_swagger_api] with the defaults, type generation off. *)
Definition plain_args : args :=
  Args "https://api.example.com/docs" true None None false false 20 50 200.

(** The number of operations in the [paths] of a payload. *)
Definition operation_count (paths : value) : nat :=
  length (flat_map (fun kv => entries ∅ (snd kv)) (entries ∅ paths)).

End Handler.

(** ** Further definitions for the properties of the whole file *)

Module Trees.
Import Sanitizer.

(** A value that [sanitizeRecursive] has nothing to do on when it meets it
    at depth [depth] with the bound [maxDepth]: a tree of literals and
    primitives, without references, whose nodes deeper than the bound are the
    truncation marker naming the bound. *)
Fixpoint settled (maxDepth depth : Z) (v : value) {struct v} : bool :=
  if (maxDepth <? depth)%Z then
    match v with
    | VPrim (PStr s) => String.eqb s ("[Truncated: >" ++ show_Z maxDepth ++ " levels]")
    | _ => false
    end
  else
    match v with
    | VPrim _ => true
    | VRef _ => false
    | VNewArr items => forallb (settled maxDepth (depth + 1)) items
    | VNewObj fields => forallb (fun kv => settled maxDepth (depth + 1) (snd kv)) fields
    end.

(** An array schema whose items are the schema itself:
    [const s = { type: "array" }; s.items = s]. *)
Definition schema_self_items : heap :=
  {[ 0%nat := NObj [("type", str "array"); ("items", VRef 0%nat)] ]}.

End Trees.

Module Shapes.
Import Mock Normalizer.

(** The literal [simplifyPaths] builds for a parameter that is neither
    [null] nor [undefined]. *)
Definition normalised_parameter (h : heap) (p : value) : value :=
  VNewObj [("name", get_prop h p "name"); ("in", get_prop h p "in");
           ("required", get_prop h p "required");
           ("description", get_prop h p "description");
           ("schema", extractParameterSchema h p)].

(** The test of [op.parameters.find(...)]: an object whose [in] is "body". *)
Definition is_body_parameter (h : heap) (p : value) : bool :=
  truthy p && typeof_object p && is_str (get_prop h p "in") "body".

(** The request body built from a legacy body parameter. *)
Definition legacy_body (h : heap) (p : value) : value :=
  VNewObj [("required", get_prop h p "required");
           ("description", get_prop h p "description");
           ("schema", extractParameterSchema h p)].

(** The request body built from a modern [requestBody]. *)
Definition modern_body (h : heap) (rb : value) : value :=
  VNewObj [("required", get_prop h rb "required");
           ("description", get_prop h rb "description");
           ("content", get_prop h rb "content")].

Definition operation_keys : list string :=
  ["summary"; "description"; "operationId"; "tags"; "parameters"; "requestBody";
   "responses"].

(** A legacy operation with a query parameter, a body parameter and a
    [requestBody] that is no object:
    [{ parameters: [{ name: "limit", in: "query", type: "integer", default: 0,
    format: "" }, { name: "payload", in: "body", schema: s }], responses: {} }]. *)
Definition legacy_operation : heap :=
  {[ 0%nat := NObj [("parameters", VRef 1%nat); ("responses", VRef 5%nat)];
     1%nat := NArr [VRef 2%nat; VRef 3%nat];
     2%nat := NObj [("name", str "limit"); ("in", str "query");
                    ("type", str "integer"); ("default", num 0); ("format", str "")];
     3%nat := NObj [("name", str "payload"); ("in", str "body"); ("schema", VRef 4%nat)];
     4%nat := NObj [("type", str "object")];
     5%nat := NObj [] ]}.

(** An operation whose parameters hold a [null], and one whose response is
    [null]. *)
Definition null_parameter_operation : heap :=
  {[ 0%nat := NObj [("parameters", VRef 1%nat)];
     1%nat := NArr [VPrim PNull] ]}.

Definition null_response_operation : heap :=
  {[ 0%nat := NObj [("responses", VRef 1%nat)];
     1%nat := NObj [("200", VPrim PNull)] ]}.

(** A path item that is an array. *)
Definition array_path_item : heap :=
  {[ 0%nat := NArr [VRef 1%nat];
     1%nat := NObj [("summary", str "hidden")] ]}.

End Shapes.

(** ** The other tools and the helpers of the file *)

Module Tools.
Import Net Mock Normalizer Handler.

(** *** [validate_swagger] *)

(** [Object.keys(api.paths || {}).length] *)
Definition pathCount (h : heap) (api : value) : Z :=
  Z.of_nat (length (keys h (or_else (get_prop h api "paths") (VNewObj [])))).

Section Health.

Variable dereference : string -> parsing.
Variable fetch : string -> settled response.
Variable template : heap -> value -> string.



End Health.

(** *** [list_controller_tags]: the tag map *)

Definition prim_eqb (p q : prim) : bool :=
  match p, q with
  | PUndef, PUndef => true
  | PNull, PNull => true
  | PBool a, PBool b => Bool.eqb a b
  | PNum a, PNum b => Z.eqb a b
  | PStr a, PStr b => String.eqb a b
  | _, _ => false
  end.

(** The equality of [Map] keys: primitives by value, objects by identity (a
    literal is no other value). *)
Definition same_key (a b : value) : bool :=
  match a, b with
  | VPrim p, VPrim q => prim_eqb p q
  | VRef l, VRef l' => Nat.eqb l l'
  | _, _ => false
  end.

(** A [Map], as its entries in insertion order. *)
Definition tag_map := list (value * value).

Definition map_has (m : tag_map) (key : value) : bool :=
  existsb (fun kv => same_key (fst kv) key) m.

Definition map_get (m : tag_map) (key : value) : value :=
  match find (fun kv => same_key (fst kv) key) m with
  | Some kv => snd kv
  | None => undefined
  end.

(** [m.set(key, v)]: a key the map has keeps its place and takes the value,
    a new key goes last. *)
Fixpoint map_set (m : tag_map) (key v : value) : tag_map :=
  match m with
  | [] => [(key, v)]
  | (k, x) :: r => if same_key k key then (k, v) :: r else (k, x) :: map_set r key v
  end.

(** [api.tags.forEach(t => tagsMap.set(t.name, t.description || ""))] *)
Fixpoint declare_tags (h : heap) (tags : list value) (m : tag_map) : result tag_map :=
  match tags with
  | [] => Ok m
  | t :: r =>
    let* name := member h t "name" in
    let* description := member h t "description" in
    declare_tags h r (map_set m name (or_else description (str "")))
  end.

(** [op.tags.forEach(tagName => { if (!tagsMap.has(tagName))
    tagsMap.set(tagName, "") })] *)
Definition reference_tags (m : tag_map) (tagNames : list value) : tag_map :=
  fold_left (fun m tagName => if map_has m tagName then m else map_set m tagName (str ""))
            tagNames m.

(** The body of the loop over the operations of a path. *)
Definition scan_operation (h : heap) (m : tag_map) (op : value) : tag_map :=
  if truthy op && truthy (get_prop h op "tags") then
    match items_of h (get_prop h op "tags") with
    | Some tagNames => reference_tags m tagNames
    | None => m
    end
  else m.

(** The first loop of [list_controller_tags]: the tags the document
    declares. *)
Definition declared_tags (h : heap) (api : value) : result tag_map :=
  let* tags := member h api "tags" in
  if truthy tags then
    match items_of h tags with
    | Some items => declare_tags h items []
    | None => Throw (TypeError "api.tags.forEach is not a function")
    end
  else Ok [].

(** The second loop: the tags of the operations of every path. *)
Definition referenced_tags (h : heap) (api : value) (m : tag_map) : tag_map :=
  fold_left
    (fun m pathValue => fold_left (scan_operation h) (getOperations h pathValue) m)
    (map snd (entries h (or_else (get_prop h api "paths") (VNewObj []))))
    m.

(** The tag map of [list_controller_tags], before it is turned into the
    sorted array. *)
Definition collect_tags (h : heap) (api : value) : result tag_map :=
  let* declared := declared_tags h api in
  Ok (referenced_tags h api declared).

(** No two keys of a map are the same key. *)
Fixpoint distinct_keys (m : tag_map) : bool :=
  match m with
  | [] => true
  | (k, _) :: r => negb (map_has r k) && distinct_keys r
  end.

(** [m] has every key of [m0] with the value [m0] gives it, and gives the
    empty string to every key [m0] has not. *)
Definition grows_from (m0 m : tag_map) : Prop :=
  (forall k, map_has m0 k = true -> map_has m k = true /\ map_get m k = map_get m0 k)
  /\ (forall k, map_has m0 k = false -> map_has m k = true -> map_get m k = str "").

(** A document that declares the tag [Auth] twice and [Users] once, and
    whose operations use [Users] and [Orders]. *)
Definition tags_document : document :=
  Document
    {[ 0%nat := NObj [("tags", VRef 1%nat); ("paths", VRef 5%nat)];
       1%nat := NArr [VRef 2%nat; VRef 3%nat; VRef 4%nat];
       2%nat := NObj [("name", str "Auth"); ("description", str "old")];
       3%nat := NObj [("name", str "Users"); ("description", str "User module")];
       4%nat := NObj [("name", str "Auth"); ("description", str "Login")];
       5%nat := NObj [("/users", VRef 6%nat)];
       6%nat := NObj [("get", VRef 7%nat); ("post", VRef 8%nat)];
       7%nat := NObj [("tags", VRef 9%nat)];
       8%nat := NObj [("tags", VRef 10%nat)];
       9%nat := NArr [str "Users"; str "Orders"];
       10%nat := NArr [str "Orders"] ]}
    (VRef 0%nat).

(** *** [formatZodError] *)

(** An issue of a failed validation: the path of the field, whose steps are
    keys or indices, and the reason. *)
Record issue := Issue { issue_path : list (string + nat); issue_message : string }.

Definition step_text (k : string + nat) : string :=
  match k with
  | inl key => key
  | inr i => index_key i
  end.

(** [l.join(sep)] on strings. *)
Fixpoint join (sep : string) (l : list string) : string :=
  match l with
  | [] => ""
  | [x] => x
  | x :: r => x ++ sep ++ join sep r
  end.

Definition issue_line (i : issue) : string :=
  match issue_path i with
  | [] => "(root)"
  | _ :: _ => join "." (map step_text (issue_path i))
  end ++ ": " ++ issue_message i.

Definition formatZodError (issues : list issue) : string :=
  join "; " (map issue_line issues).

(** *** [getVersion] *)

Section Version.

(** [s.trim()] *)
Variable trim : string -> string.


End Version.





(** Two results that differ at most in the appended type text. *)
Definition same_but_appended (r r' : tool_result) : Prop :=
  match r, r' with
  | Payload json _, Payload json' _ => json = json'
  | Text isError text, Text isError' text' => isError = isError' /\ text = text'
  | _, _ => False
  end.

(** Two runs that log the same events and end alike, the appended type
    text aside. *)
Definition agree (m m' : M tool_result) : Prop :=
  fst m = fst m'
  /\ match snd m, snd m' with
     | Ok r, Ok r' => same_but_appended r r'
     | Throw e, Throw e' => e = e'
     | _, _ => False
     end.

Definition failing_types (h : heap) (schema : value) : settled string :=
  Rejected "Refs should have been resolved by the resolver!".

End Tools.

(** * Properties *)

(** ** Sanitizer *)

Module SanitizerProps.
Import Sanitizer.

Ltac invert H := inversion H; subst; clear H.

(** Case analysis of a monadic step in a hypothesis [... = Some _]. *)
Tactic Notation "step_some" hyp(H) "as" ident(y) ident(s) ident(E) :=
  match type of H with
  | context [mbind _ ?m] =>
    destruct m as [[y s]|] eqn:E; simpl in H; [|discriminate H]
  end.


Section Loops.

Variable each : value -> gset loc -> option (value * gset loc).




(** Every member of the result is the visit of the member at the same
    position, and the result has as many members. *)
Lemma map_seen_lookup items seen r seen' :
  map_seen each items seen = Some (r, seen') ->
  length r = length items /\
  forall i y, r !! i = Some y ->
    exists x s1 s2, items !! i = Some x /\ each x s1 = Some (y, s2).
Proof.
  revert seen r seen'. induction items as [|x xs IH]; intros seen r seen' H; simpl in H.
  - invert H. split; [reflexivity|]. intros i y Hi. destruct i; discriminate.
  - step_some H as y1 s1 E1. step_some H as ys s2 E2. invert H.
    destruct (IH _ _ _ E2) as [Hlen Hall]. split; [simpl; congruence|].
    intros [|i] y Hi; simpl in Hi.
    + invert Hi. exists x, seen, s1. split; [reflexivity|assumption].
    + apply Hall in Hi. exact Hi.
Qed.

Lemma forin_seen_lookup fields seen r seen' :
  forin_seen each fields seen = Some (r, seen') ->
  map fst r = map fst fields /\
  forall i y, snd <$> r !! i = Some y ->
    exists x s1 s2, snd <$> fields !! i = Some x /\ each x s1 = Some (y, s2).
Proof.
  revert seen r seen'. induction fields as [|[k x] xs IH]; intros seen r seen' H; simpl in H.
  - invert H. split; [reflexivity|]. intros i y Hi. destruct i; discriminate.
  - step_some H as y1 s1 E1. step_some H as ys s2 E2. invert H.
    destruct (IH _ _ _ E2) as [Hkeys Hall]. split; [simpl; congruence|].
    intros [|i] y Hi; simpl in Hi.
    + invert Hi. exists x, seen, s1. split; [reflexivity|assumption].
    + apply Hall in Hi. exact Hi.
Qed.

Lemma members_child n seen out seen' :
  members each n seen = Some (out, seen') ->
  (forall l, out <> VRef l) /\
  (forall i, is_Some (child ∅ out i) <-> is_Some (node_child n i)) /\
  forall i y, child ∅ out i = Some y ->
    exists x s1 s2, node_child n i = Some x /\ each x s1 = Some (y, s2).
Proof.
  destruct n as [items|fields]; simpl; intros H; step_some H as r s E; invert H.
  - destruct (map_seen_lookup _ _ _ _ E) as [Hlen Hall].
    split; [discriminate|]. split; [|exact Hall].
    intros i. unfold child; simpl. rewrite !lookup_lt_is_Some. lia.
  - destruct (forin_seen_lookup _ _ _ _ E) as [Hkeys Hall].
    split; [discriminate|]. split; [|exact Hall].
    intros i. unfold child; simpl. rewrite !fmap_is_Some, !lookup_lt_is_Some.
    apply (f_equal (@length _)) in Hkeys. rewrite !length_map in Hkeys. lia.
Qed.

(** The set only grows along a loop when it only grows in each visit. *)
Hypothesis each_grows : forall x s y s', each x s = Some (y, s') -> s ⊆ s'.

Lemma map_seen_grows items seen r seen' :
  map_seen each items seen = Some (r, seen') -> seen ⊆ seen'.
Proof.
  revert seen r seen'. induction items as [|x xs IH]; intros seen r seen' H; simpl in H.
  - invert H. reflexivity.
  - step_some H as y1 s1 E1. step_some H as ys s2 E2. invert H.
    transitivity s1; [eapply each_grows | eapply IH]; eassumption.
Qed.

Lemma forin_seen_grows fields seen r seen' :
  forin_seen each fields seen = Some (r, seen') -> seen ⊆ seen'.
Proof.
  revert seen r seen'. induction fields as [|[k x] xs IH]; intros seen r seen' H; simpl in H.
  - invert H. reflexivity.
  - step_some H as y1 s1 E1. step_some H as ys s2 E2. invert H.
    transitivity s1; [eapply each_grows | eapply IH]; eassumption.
Qed.

Lemma members_grows n seen out seen' :
  members each n seen = Some (out, seen') -> seen ⊆ seen'.
Proof.
  destruct n as [items|fields]; simpl; intros H; step_some H as r s E; invert H.
  - eapply map_seen_grows; eassumption.
  - eapply forin_seen_grows; eassumption.
Qed.

End Loops.

#[local] Arguments members : simpl never.




(** The set of entered objects only grows. *)
Lemma sanitizeRecursive_grows fuel h obj depth maxDepth seen out seen' :
  sanitizeRecursive fuel h obj depth maxDepth seen = Some (out, seen') -> seen ⊆ seen'.
Proof.
  revert obj depth seen out seen'.
  induction fuel as [|fuel IH]; intros obj depth seen out seen' H; [discriminate|].
  simpl in H. destruct (maxDepth <? depth)%Z; [invert H; reflexivity|].
  assert (Hgrow : forall x s y s',
    sanitizeRecursive fuel h x (depth + 1) maxDepth s = Some (y, s') -> s ⊆ s')
    by (intros; eapply IH; eassumption).
  destruct obj as [p|l|items|fields].
  - invert H. reflexivity.
  - destruct (decide (l ∈ seen)); [invert H; reflexivity|].
    apply (members_grows _ Hgrow) in H. set_solver.
  - exact (members_grows _ Hgrow _ _ _ _ H).
  - exact (members_grows _ Hgrow _ _ _ _ H).
Qed.




(** What the code does with an object within the depth bound: the call
    returns the circular-reference marker exactly when the object is in the
    [seen] set the call receives; the call leaves the object in the set, and
    the set a call returns contains the set it received. The set starts empty
    in [sanitize] and nothing is removed when a call returns, so it holds
    every object entered so far by the top-level call, on the current
    recursion path or in a sibling branch finished before. *)
Lemma circular_marker_iff_entered_before
    (fuel : nat) (h : heap) (l : loc) (depth maxDepth : Z)
    (seen : gset loc) (out : value) (seen' : gset loc) :
  (depth <= maxDepth)%Z ->
  sanitizeRecursive fuel h (VRef l) depth maxDepth seen = Some (out, seen') ->
  (out = circular <-> l ∈ seen) /\ l ∈ seen' /\ seen ⊆ seen'.
Proof.
  intros Hd H. pose proof (sanitizeRecursive_grows _ _ _ _ _ _ _ _ H) as Hsub.
  destruct fuel as [|fuel]; [discriminate|]. simpl in H.
  destruct (Z.ltb_spec maxDepth depth) as [?|_]; [lia|].
  destruct (decide (l ∈ seen)) as [Hin|Hnin].
  - invert H. repeat split; auto.
  - split; [|split; [|exact Hsub]].
    + split; [|contradiction]. intros ->.
      destruct (members_child _ _ _ _ _ H) as (_ & _ & _).
      destruct (node_of h l); unfold members in H;
        step_some H as r s E; discriminate.
    + assert (Hgrow : forall x s y s',
        sanitizeRecursive fuel h x (depth + 1) maxDepth s = Some (y, s') -> s ⊆ s')
        by (intros; eapply sanitizeRecursive_grows; eassumption).
      apply (members_grows _ Hgrow) in H. set_solver.
Qed.

Lemma circular_marker_iff_entered_before_witness :
  (circular = circular <-> 1%nat ∈ ({[1%nat]} : gset loc))
  /\ 1%nat ∈ ({[1%nat]} : gset loc)
  /\ ({[1%nat]} : gset loc) ⊆ {[1%nat]}.
Proof.
  apply (circular_marker_iff_entered_before 1 siblings 1%nat 1 30 {[1%nat]}).
  - lia.
  - vm_compute. reflexivity.
Defined.

(** C3, evaluated. In [{ a: shared, b: shared }] the object [shared] occurs
    in two sibling branches and is no ancestor of either position; the
    sanitizer recurses into it under [a] and returns the circular-reference
    marker under [b], so the marker is not confined to objects met earlier on
    the current recursion path. *)
Theorem sibling_marked_circular :
  sanitize siblings (VRef 0%nat) 30
  = Some (VNewObj [("a", VNewObj [("x", num 1)]); ("b", circular)])
  /\ descend siblings (VRef 0%nat) [1%nat] = Some (VRef 1%nat)
  /\ ancestors siblings (VRef 0%nat) [1%nat] = [0%nat]
  /\ ~ marks_ancestors_only siblings (VRef 0%nat) 30.
Proof.
  split; [vm_compute; reflexivity|]. split; [vm_compute; reflexivity|].
  split; [vm_compute; reflexivity|].
  intros H.
  specialize (H (VNewObj [("a", VNewObj [("x", num 1)]); ("b", circular)])
                [1%nat] 1%nat circular).
  destruct H as [H _]; try (vm_compute; reflexivity); [vm_compute; discriminate|].
  specialize (H eq_refl). vm_compute in H. destruct H as [H|[]]. discriminate H.
Qed.

Example sanitize_siblings :
  sanitize siblings (VRef 0%nat) 30
  = Some (VNewObj [("a", VNewObj [("x", num 1)]); ("b", circular)]).
Proof. vm_compute. reflexivity. Qed.

Example sanitize_selfloop :
  sanitize selfloop (VRef 0%nat) 30
  = Some (VNewObj [("id", num 7); ("self", circular)]).
Proof. vm_compute. reflexivity. Qed.

Example sanitize_nested :
  sanitize ∅ nested 2
  = Some (VNewArr [VNewArr [VNewArr [truncated 2]]; num 9]).
Proof. vm_compute. reflexivity. Qed.

End SanitizerProps.

(** ** Mock synthesis *)

Module MockProps.
Import Mock.

(** A value with a truthy [example] is itself truthy. *)
Lemma truthy_example_schema (h : heap) (schema : value) :
  truthy (get_prop h schema "example") = true -> truthy schema = true.
Proof.
  destruct schema as [[| |b|n|s]| | |]; try reflexivity; discriminate.
Qed.

(** C4, as amended. For every schema whose [example] is truthy (neither
    absent nor [null], [false], [0] or the empty string), the example is
    returned as it is, whatever the declared type and whatever else the
    schema holds. *)
Theorem example_returned_when_truthy (fuel : nat) (h : heap) (schema : value) :
  truthy (get_prop h schema "example") = true ->
  generateMockData (S fuel) h schema = Some (get_prop h schema "example").
Proof.
  intros Hexample. simpl.
  rewrite (truthy_example_schema _ _ Hexample), Hexample. reflexivity.
Qed.

Lemma example_returned_when_truthy_witness :
  truthy (get_prop schema_example (VRef 0%nat) "example") = true
  /\ generateMockData 1 schema_example (VRef 0%nat)
     = Some (get_prop schema_example (VRef 0%nat) "example").
Proof.
  split; [vm_compute; reflexivity|].
  apply (example_returned_when_truthy 0 schema_example (VRef 0%nat)).
  vm_compute. reflexivity.
Defined.

(** C4, as stated, fails: [{ type: "boolean", example: false }] has an
    example, and the synthesis returns [true]. *)
Lemma false_example_not_returned :
  get_prop schema_false (VRef 0%nat) "example" = VPrim (PBool false)
  /\ generateMockData 1 schema_false (VRef 0%nat) = Some (VPrim (PBool true))
  /\ ~ returns_example schema_false (VRef 0%nat).
Proof.
  split; [vm_compute; reflexivity|]. split; [vm_compute; reflexivity|].
  intros H. specialize (H 0%nat). vm_compute in H. discriminate H.
Qed.

Example mock_example_verbatim :
  generateMockData 1 schema_example (VRef 0%nat) = Some (VRef 1%nat).
Proof. vm_compute. reflexivity. Qed.

Example mock_object :
  generateMockData 2 schema_object (VRef 0%nat)
  = Some (VNewObj [("id", num 0); ("name", str "string_value")]).
Proof. vm_compute. reflexivity. Qed.

Example mock_enum :
  generateMockData 1 schema_enum (VRef 0%nat) = Some (str "A").
Proof. vm_compute. reflexivity. Qed.

End MockProps.

(** ** Normalizer *)

Module NormalizerProps.
Import Normalizer.

Ltac step_ok H x E :=
  match type of H with
  | context [JS.bind ?m _] =>
    destruct m as [x|] eqn:E; simpl in H; [|discriminate H]
  end.

Lemma map_flat_map {A B C : Type} (f : B -> C) (g : A -> list B) (l : list A) :
  flat_map (fun x => map f (g x)) l = map f (flat_map g l).
Proof.
  induction l as [|x l IH]; simpl; [reflexivity|]. rewrite map_app, IH. reflexivity.
Qed.

Lemma flat_map_singleton {A B : Type} (f : A -> B) (l : list A) :
  flat_map (fun x => [f x]) l = map f l.
Proof. induction l as [|x l IH]; simpl; congruence. Qed.

(** A loop over the fields keeps the keys and the order; what is computed
    from the new fields is what is computed from the old ones when it is so
    field by field. *)
Lemma flat_map_fields {C : Type} (f : value -> result value)
    (g g' : string * value -> list C) (l r : list (string * value)) :
  map_fields f l = Ok r ->
  (forall kv y, f (snd kv) = Ok y -> g' (fst kv, y) = g kv) ->
  flat_map g' r = flat_map g l.
Proof.
  intros H Hg. revert r H. unfold map_fields.
  induction l as [|kv l IH]; intros r H; simpl in H.
  - injection H as <-. reflexivity.
  - step_ok H y E. step_ok E y' E'. injection E as <-.
    step_ok H ys Es. injection H as <-. simpl.
    rewrite (Hg _ _ E'), (IH _ eq_refl). reflexivity.
Qed.

Lemma map_fields_keys (f : value -> result value) (l r : list (string * value)) :
  map_fields f l = Ok r -> map fst r = map fst l.
Proof.
  revert r. unfold map_fields.
  induction l as [|kv l IH]; intros r H; simpl in H.
  - injection H as <-. reflexivity.
  - step_ok H y E. step_ok E y' E'. injection E as <-.
    step_ok H ys Es. injection H as <-. simpl. rewrite (IH _ eq_refl). reflexivity.
Qed.

Lemma simplifyResponse_descriptor h resp d :
  simplifyResponse h resp = Ok d -> d = descriptor h resp.
Proof.
  unfold simplifyResponse, member. destruct (nullish resp); simpl; [discriminate|].
  intros [= <-]. reflexivity.
Qed.

Lemma simplifyOperation_responses h op o :
  simplifyOperation h op = Ok o ->
  map snd (entries ∅ (get_prop ∅ o "responses"))
  = map (descriptor h)
        (map snd (entries h (or_else (get_prop h op "responses") (VNewObj [])))).
Proof.
  unfold simplifyOperation. intros H. step_ok H ps Eps. step_ok H rs Ers.
  injection H as <-. unfold simplifyResponses in Ers. step_ok Ers r Er.
  injection Ers as <-. cbn [get_prop shape get_field find fst snd String.eqb Ascii.eqb Bool.eqb].
  cbn [entries shape]. rewrite map_map, <- !flat_map_singleton.
  eapply flat_map_fields; [exact Er|].
  intros kv y Hy. cbn [fst snd]. rewrite (simplifyResponse_descriptor _ _ _ Hy).
  reflexivity.
Qed.

(** C5, as amended. In the normalised projection every response descriptor
    is the record [{description, content, schema}] built from one response
    of the document, in the document's order: [content] and [schema] are
    that response's own [content] and [schema], each populated exactly when
    the response carries it (neither, one or both may be), and
    [description] is its description or the empty string. *)
Theorem descriptors_copy_content_and_schema (h : heap) (paths simplified : value) :
  simplifyPaths h paths = Ok simplified ->
  descriptors_of simplified = map (descriptor h) (responses_of h paths).
Proof.
  unfold simplifyPaths, descriptors_of, responses_of. intros H.
  step_ok H r Er. injection H as <-. cbn [entries shape].
  rewrite <- map_flat_map. eapply flat_map_fields; [exact Er|].
  intros [pathKey pathValue] item Hitem. cbn [fst snd].
  unfold simplifyPathItem in Hitem. step_ok Hitem ops Eops. injection Hitem as <-.
  cbn [entries shape]. rewrite <- map_flat_map.
  eapply flat_map_fields; [exact Eops|].
  intros [method op] o Ho. cbn [fst snd] in *.
  apply simplifyOperation_responses. exact Ho.
Qed.

Lemma descriptors_copy_content_and_schema_witness :
  simplifyPaths doc_both (VRef 0%nat) = Ok simplified_both
  /\ descriptors_of simplified_both
     = map (descriptor doc_both) (responses_of doc_both (VRef 0%nat)).
Proof.
  split; [vm_compute; reflexivity|].
  apply (descriptors_copy_content_and_schema doc_both (VRef 0%nat) simplified_both).
  vm_compute. reflexivity.
Defined.

(** C5, as stated, fails: the descriptor of a response that has only a
    description carries neither [content] nor [schema], and the descriptor
    of a response that has both carries both. *)
Lemma no_content_descriptor_has_neither :
  simplifyPaths doc_no_content (VRef 0%nat)
  = Ok (VNewObj
      [("/ping", VNewObj
        [("get", VNewObj
          [("summary", str ""); ("description", str ""); ("operationId", str "");
           ("tags", VNewArr []); ("parameters", VNewArr []);
           ("requestBody", undefined);
           ("responses", VNewObj
             [("204", VNewObj [("description", str "No Content");
                               ("content", undefined);
                               ("schema", undefined)])])])])])
  /\ (let* simplified := simplifyPaths doc_no_content (VRef 0%nat) in
      Ok (forallb one_of_content_schema (descriptors_of simplified))) = Ok false
  /\ (let* simplified := simplifyPaths doc_both (VRef 0%nat) in
      Ok (forallb one_of_content_schema (descriptors_of simplified))) = Ok false.
Proof. repeat split; vm_compute; reflexivity. Qed.

End NormalizerProps.

(** ** Acquisition *)

Module NetProps.
Import Net.

(** *** Substrings *)

Lemma prefix_empty (s : string) : String.prefix "" s = true.
Proof. destruct s; reflexivity. Qed.

Lemma prefix_app_r (n s q : string) :
  String.prefix n s = true -> String.prefix n (s ++ q) = true.
Proof.
  revert s. induction n as [|d n IH]; intros s H; [apply prefix_empty|].
  destruct s as [|c s]; simpl in *; [discriminate|].
  destruct (ascii_dec d c); [apply IH; exact H|discriminate].
Qed.

Lemma prefix_refl (n : string) : String.prefix n n = true.
Proof.
  induction n as [|c n IH]; simpl; [reflexivity|].
  destruct (ascii_dec c c); [exact IH|contradiction].
Qed.

Lemma includes_unfold (s n : string) :
  includes s n
  = String.prefix n s || match s with EmptyString => false | String _ r => includes r n end.
Proof. destruct s; reflexivity. Qed.

Lemma includes_skip (p s n : string) :
  includes s n = true -> includes (p ++ s) n = true.
Proof.
  intros H. induction p as [|c p IH]; simpl; [exact H|].
  rewrite IH. apply orb_true_r.
Qed.

Lemma includes_app_r (s q n : string) :
  includes s n = true -> includes (s ++ q) n = true.
Proof.
  induction s as [|c s IH]; intros H.
  - rewrite includes_unfold in H. rewrite orb_false_r in H.
    rewrite includes_unfold, (prefix_app_r _ _ q H). reflexivity.
  - rewrite includes_unfold in H. apply orb_true_iff in H. simpl "++".
    rewrite includes_unfold. apply orb_true_iff. destruct H as [H|H].
    + left. exact (prefix_app_r _ _ q H).
    + right. exact (IH H).
Qed.

(** A substring of a part is a substring of the whole. *)
Lemma includes_inside (p s q n : string) :
  includes s n = true -> includes (p ++ s ++ q) n = true.
Proof. intros H. apply includes_skip, includes_app_r, H. Qed.

Lemma includes_refl (n : string) : includes n n = true.
Proof. rewrite includes_unfold, prefix_refl. reflexivity. Qed.

Lemma includes_here (n t : string) : includes (n ++ t) n = true.
Proof. apply includes_app_r, includes_refl. Qed.

Lemma includes_middle (p n q : string) : includes (p ++ n ++ q) n = true.
Proof. apply includes_inside, includes_refl. Qed.

(** *** The two reads *)

Section Network.

Variable dereference : string -> parsing.
Variable fetch : string -> settled response.

Lemma dereferenced_eq url :
  dereferenced dereference url
  = ([Dereference url], snd (dereferenced dereference url)).
Proof. reflexivity. Qed.

Lemma fetchRawSwagger_eq url :
  fetchRawSwagger fetch url = ([Fetch url], snd (fetchRawSwagger fetch url)).
Proof. reflexivity. Qed.

Lemma getSwaggerApi_resolved url use_fallback d :
  snd (dereferenced dereference url) = Ok d ->
  getSwaggerApi dereference fetch url use_fallback = ([Dereference url], Ok d).
Proof.
  intros H. unfold getSwaggerApi. rewrite dereferenced_eq, H. reflexivity.
Qed.

Lemma getSwaggerApi_fallback url parseError :
  snd (dereferenced dereference url) = Throw parseError ->
  getSwaggerApi dereference fetch url true
  = ([Dereference url; Fetch url],
     match snd (fetchRawSwagger fetch url) with
     | Ok d => Ok d
     | Throw fallbackError =>
       Throw (BothFailed (message parseError) (message fallbackError))
     end).
Proof.
  intros H. unfold getSwaggerApi. rewrite dereferenced_eq, H. unfold catch.
  rewrite fetchRawSwagger_eq. destruct (snd (fetchRawSwagger fetch url)); reflexivity.
Qed.

Lemma getSwaggerApi_no_fallback url parseError :
  snd (dereferenced dereference url) = Throw parseError ->
  getSwaggerApi dereference fetch url false = ([Dereference url], Throw parseError).
Proof.
  intros H. unfold getSwaggerApi. rewrite dereferenced_eq, H. reflexivity.
Qed.

(** The requests of an acquisition are its only events. *)
Lemma getSwaggerApi_stages url use_fallback :
  stages (fst (getSwaggerApi dereference fetch url use_fallback)) = [].
Proof.
  destruct (snd (dereferenced dereference url)) as [d|e] eqn:E.
  - rewrite (getSwaggerApi_resolved _ _ _ E). reflexivity.
  - destruct use_fallback.
    + rewrite (getSwaggerApi_fallback _ _ E). reflexivity.
    + rewrite (getSwaggerApi_no_fallback _ _ E). reflexivity.
Qed.

(** C10, as amended. For a response with a success status, the raw read
    ends in the content-type error exactly when the response declares a
    Content-Type whose value is not empty and does not contain "json" in any
    letter case, and its body text can be read (the error quotes it); when the
    response carries no Content-Type header, the outcome is that of parsing
    the body as JSON. *)
Theorem content_type_error_iff (url : string) (resp : response) :
  fetch url = Resolved resp ->
  ok resp = true ->
  (is_content_type_error (snd (fetchRawSwagger fetch url)) <->
   exists contentType body,
     content_type resp = Some contentType
     /\ contentType <> ""
     /\ includes (toLowerCase contentType) "json" = false
     /\ text resp = Resolved body)
  /\ (content_type resp = None ->
      snd (fetchRawSwagger fetch url) = settle (json resp)).
Proof.
  intros Hfetch Hok. unfold fetchRawSwagger, bindM, tell, lift. simpl.
  rewrite Hfetch. simpl. rewrite Hok. simpl.
  assert (Hjson : ~ is_content_type_error (settle (json resp))).
  { intros (c & b & H). destruct (json resp); discriminate H. }
  destruct (content_type resp) as [ct|]; [|split; [|reflexivity]].
  - split; [|discriminate].
    destruct (String.eqb_spec ct "") as [->|Hne]; simpl.
    { split; [intros H; contradiction|]. intros (c & b & [= <-] & Hc & _). contradiction. }
    destruct (includes (toLowerCase ct) "json") eqn:Hinc; simpl.
    { split; [intros H; contradiction|].
      intros (c & b & [= <-] & _ & Hc & _). congruence. }
    destruct (text resp) as [body|msg]; simpl.
    + split; [|intros _; exists ct, body; reflexivity].
      intros _. exists ct, body. auto.
    + split; [intros (c & b & H); discriminate H|].
      intros (c & b & _ & _ & _ & H). discriminate H.
  - split; [intros H; contradiction|]. intros (c & b & H & _). discriminate H.
Qed.

End Network.

Lemma content_type_error_iff_witness :
  answers_html "u" = Resolved html_page
  /\ ok html_page = true
  /\ (is_content_type_error (snd (fetchRawSwagger answers_html "u")) <->
      exists contentType body,
        content_type html_page = Some contentType
        /\ contentType <> ""
        /\ includes (toLowerCase contentType) "json" = false
        /\ text html_page = Resolved body)
  /\ (content_type html_page = None ->
      snd (fetchRawSwagger answers_html "u") = settle (json html_page)).
Proof.
  split; [reflexivity|]. split; [reflexivity|].
  apply (content_type_error_iff answers_html "u" html_page); reflexivity.
Defined.

(** C10, as stated, fails: a 404 that declares [text/html] ends in the
    status error, not in the content-type error; a 200 whose Content-Type is
    declared empty is parsed as JSON; and a 200 that declares [text/html]
    and whose body cannot be read ends in the error of the read. *)
Lemma content_type_rule_fails :
  ~ content_type_rule not_found_page
      (snd (fetchRawSwagger (fun _ => Resolved not_found_page) "u"))
  /\ ~ content_type_rule empty_content_type
      (snd (fetchRawSwagger (fun _ => Resolved empty_content_type) "u"))
  /\ ~ content_type_rule aborted_page
      (snd (fetchRawSwagger (fun _ => Resolved aborted_page) "u")).
Proof.
  repeat split; intros [_ H].
  - destruct H as (c & b & H); [|discriminate H].
    exists "text/html". split; reflexivity.
  - destruct H as (c & b & H); [|discriminate H].
    exists "". split; reflexivity.
  - destruct H as (c & b & H); [|discriminate H].
    exists "text/html". split; reflexivity.
Qed.

Example fetch_not_found :
  snd (fetchRawSwagger (fun _ => Resolved not_found_page) "u")
  = Throw (HttpError 404 "Not Found").
Proof. reflexivity. Qed.

Example fetch_html :
  snd (fetchRawSwagger (fun _ => Resolved html_page) "u")
  = Throw (ContentTypeError "Text/HTML; charset=utf-8" "<html>hello</html>").
Proof. reflexivity. Qed.

Example fetch_without_content_type :
  snd (fetchRawSwagger (fun _ => Resolved no_content_type) "u") = Ok empty_document.
Proof. reflexivity. Qed.

End NetProps.

(** ** The filter and the tool *)

Module HandlerProps.
Import Net Normalizer Mock Sanitizer Handler NetProps.

(** *** The filter loop *)







(** [matchCount] counts the entries put into [filteredPaths]. *)
Lemma filter_loop_count (h : heap) (keyword tag : option string)
    (ents acc acc' : list (string * value)) (n n' : Z) :
  filter_loop h keyword tag ents acc n = Ok (acc', n') ->
  (n' - n = Z.of_nat (length acc') - Z.of_nat (length acc))%Z.
Proof.
  revert acc n. induction ents as [|[pathKey pathValue] ents IH]; intros acc n H.
  - injection H as <- <-. lia.
  - cbn [filter_loop] in H. destruct (negb (truthy pathValue)); [exact (IH _ _ H)|].
    destruct (matches h keyword tag pathKey pathValue) as [[|]|e]; cbn [JS.bind] in H.
    + apply IH in H. rewrite length_app in H. simpl in H. lia.
    + exact (IH _ _ H).
    + discriminate H.
Qed.



(** The example of the specification, letter case aside: the keyword
    retains [/users], whose operations mention a user, and excludes
    [/orders]. *)
Example filter_by_keyword :
  filterPaths (doc_heap two_paths_document) (doc_root two_paths_document)
    (Some "USER") None
  = Ok ([("/users", VRef 2%nat)], 1%Z).
Proof. vm_compute. reflexivity. Qed.


(** *** The tool *)

Lemma fetches_app (l l' : list event) : fetches (l ++ l') = (fetches l + fetches l')%nat.
Proof. unfold fetches. rewrite List.filter_app, length_app. reflexivity. Qed.

Lemma bindM_log {A B : Type} (m : M A) (k : A -> M B) :
  fst (bindM m k)
  = (fst m ++ match snd m with Ok a => fst (k a) | Throw _ => [] end)%list.
Proof.
  destruct m as [log [a|e]]; simpl.
  - destruct (k a); reflexivity.
  - rewrite app_nil_r. reflexivity.
Qed.

Lemma quiet_bind {A B : Type} (m : M A) (k : A -> M B) :
  quiet m -> (forall a, quiet (k a)) -> quiet (bindM m k).
Proof.
  unfold quiet. intros Hm Hk. rewrite bindM_log, fetches_app, Hm.
  destruct (snd m); [apply Hk|reflexivity].
Qed.

Lemma quiet_lift {A : Type} (r : result A) : quiet (lift r).
Proof. reflexivity. Qed.

Lemma quiet_ret {A : Type} (a : A) : quiet (ret a).
Proof. reflexivity. Qed.

Section Tool.

Variable dereference : string -> parsing.
Variable fetch : string -> settled response.
Variable compile : heap -> value -> settled string.
Variable template : heap -> value -> string.
Variable url_scheme : string -> string.
Variable stack : nat.

Local Abbreviation tool :=
  (read_swagger_api dereference fetch compile template url_scheme stack).
Local Abbreviation body :=
  (read_swagger_api_body dereference fetch compile template url_scheme stack).

Lemma tool_log a : fst (tool a) = fst (body a).
Proof. unfold read_swagger_api. destruct (body a) as [log [r|e]]; reflexivity. Qed.

Lemma appended_types_quiet h api : quiet (appended_types compile h api).
Proof.
  unfold appended_types. destruct (truthy _); [|reflexivity].
  apply quiet_bind; [reflexivity|]. intros _. destruct (compile h _); reflexivity.
Qed.

(** After the acquisition the tool makes no request. *)
Lemma tool_fetches a :
  fetches (fst (tool a))
  = fetches (fst (getSwaggerApi dereference fetch (url a) (use_fallback a))).
Proof.
  rewrite tool_log. unfold read_swagger_api_body.
  rewrite bindM_log, fetches_app.
  destruct (snd (getSwaggerApi dereference fetch (url a) (use_fallback a))) as [api|e];
    [|cbn; lia].
  match goal with |- (_ + ?x)%nat = _ => enough (x = 0%nat) as -> by lia end.
  apply quiet_bind; [apply quiet_lift|]. intros [filtered n].
  destruct (n =? 0)%Z; [apply quiet_ret|].
  apply quiet_bind; [reflexivity|]. intros _.
  apply quiet_bind; [apply quiet_lift|]. intros simplified.
  apply quiet_bind.
  { destruct (generate_mock a); [|apply quiet_ret].
    apply quiet_bind; [reflexivity|]. intros _. apply quiet_lift. }
  intros mocked.
  apply quiet_bind; [reflexivity|]. intros _.
  apply quiet_bind; [apply quiet_lift|]. intros safe.
  apply quiet_bind; [|intros; apply quiet_ret].
  destruct (generate_ts a); [apply appended_types_quiet|apply quiet_ret].
Qed.

(** C8. When the resolver fails and [use_fallback] is set, the raw read is
    requested exactly once in the whole invocation; if it fails too, the tool
    returns one error text that contains the resolver's message and the
    fallback's message. When [use_fallback] is not set, [getSwaggerApi]
    throws the resolver's own error, unchanged, the tool makes no raw read
    and returns that error's text. *)
Theorem fallback_once_and_both_messages (a : args) (parseError : exn) :
  snd (dereferenced dereference (url a)) = Throw parseError ->
  (use_fallback a = true ->
     fetches (fst (tool a)) = 1%nat
     /\ forall fallbackError,
          snd (fetchRawSwagger fetch (url a)) = Throw fallbackError ->
          tool a
          = ([Dereference (url a); Fetch (url a)],
             Text true (failure (BothFailed (message parseError)
                                            (message fallbackError))))
          /\ includes (failure (BothFailed (message parseError) (message fallbackError)))
                      (message parseError) = true
          /\ includes (failure (BothFailed (message parseError) (message fallbackError)))
                      (message fallbackError) = true)
  /\ (use_fallback a = false ->
      getSwaggerApi dereference fetch (url a) false
      = ([Dereference (url a)], Throw parseError)
      /\ tool a = ([Dereference (url a)], Text true (failure parseError))
      /\ fetches (fst (tool a)) = 0%nat).
Proof.
  intros Hparse. split.
  - intros Hfb. split.
    + rewrite tool_fetches, Hfb, (getSwaggerApi_fallback _ _ _ _ Hparse). reflexivity.
    + intros fallbackError Hfetch. split; [|split].
      * unfold read_swagger_api, read_swagger_api_body.
        rewrite Hfb, (getSwaggerApi_fallback _ _ _ _ Hparse), Hfetch. reflexivity.
      * unfold failure. apply includes_inside. cbn [message].
        do 3 apply includes_skip. apply (includes_here (message parseError)).
      * unfold failure. apply includes_inside. cbn [message].
        do 6 apply includes_skip. apply includes_refl.
  - intros Hfb.
    assert (Htool : tool a = ([Dereference (url a)], Text true (failure parseError))).
    { unfold read_swagger_api, read_swagger_api_body.
      rewrite Hfb, (getSwaggerApi_no_fallback _ _ _ _ Hparse). reflexivity. }
    split; [exact (getSwaggerApi_no_fallback _ _ _ _ Hparse)|].
    split; [exact Htool|]. rewrite Htool. reflexivity.
Qed.

(** C9. When the filter retains no entry, the tool returns, without the
    error flag, the diagnostic text and no payload; the text quotes the
    keyword and the tag that were given; and the invocation has run none of
    the stages after the filter: no normalisation, no mock synthesis, no
    sanitisation, no type synthesis. *)
Theorem zero_match_returns_diagnostic
    (a : args) (api : document) (log : list event) (n : Z) :
  getSwaggerApi dereference fetch (url a) (use_fallback a) = (log, Ok api) ->
  filterPaths (doc_heap api) (doc_root api) (path_pattern a) (tag a) = Ok ([], n) ->
  tool a = (log, Text false (no_match a))
  /\ stages (fst (tool a)) = []
  /\ (forall k, given (path_pattern a) = Some k -> includes (no_match a) k = true)
  /\ (forall t, given (tag a) = Some t -> includes (no_match a) t = true).
Proof.
  intros Hapi Hfilter.
  assert (Hn : n = 0%Z).
  { unfold filterPaths in Hfilter.
    destruct (member _ _ _) as [paths|e]; [|discriminate Hfilter].
    cbn [JS.bind] in Hfilter. apply filter_loop_count in Hfilter. simpl in Hfilter. lia. }
  subst n.
  assert (Htool : tool a = (log, Text false (no_match a))).
  { unfold read_swagger_api, read_swagger_api_body.
    rewrite Hapi. cbn [bindM]. unfold lift. rewrite Hfilter. cbn.
    rewrite ?app_nil_r. reflexivity. }
  split; [exact Htool|]. split; [|split].
  - rewrite Htool. cbn [fst].
    pose proof (getSwaggerApi_stages dereference fetch (url a) (use_fallback a)) as H.
    rewrite Hapi in H. exact H.
  - intros k Hk. unfold no_match, shown. rewrite Hk. cbn [default].
    do 3 apply includes_skip. apply (includes_here k).
  - intros t Ht. unfold no_match, shown. rewrite Ht. cbn [default].
    do 6 apply includes_skip. apply (includes_here t).
Qed.

End Tool.

Lemma fallback_once_and_both_messages_witness :
  snd (dereferenced never_resolves (url (defaults "https://api.example.com/docs")))
  = Throw ParserTimeout
  /\
  (use_fallback (defaults "https://api.example.com/docs") = true ->
     fetches (fst (read_swagger_api never_resolves answers_html no_types plain https 64
                     (defaults "https://api.example.com/docs"))) = 1%nat
     /\ forall fallbackError,
          snd (fetchRawSwagger answers_html "https://api.example.com/docs")
          = Throw fallbackError ->
          read_swagger_api never_resolves answers_html no_types plain https 64
            (defaults "https://api.example.com/docs")
          = ([Dereference "https://api.example.com/docs";
              Fetch "https://api.example.com/docs"],
             Text true (failure (BothFailed (message ParserTimeout)
                                            (message fallbackError))))
          /\ includes (failure (BothFailed (message ParserTimeout) (message fallbackError)))
                      (message ParserTimeout) = true
          /\ includes (failure (BothFailed (message ParserTimeout) (message fallbackError)))
                      (message fallbackError) = true)
  /\ (use_fallback (defaults "https://api.example.com/docs") = false ->
      getSwaggerApi never_resolves answers_html "https://api.example.com/docs" false
      = ([Dereference "https://api.example.com/docs"], Throw ParserTimeout)
      /\ read_swagger_api never_resolves answers_html no_types plain https 64
        (defaults "https://api.example.com/docs")
      = ([Dereference "https://api.example.com/docs"], Text true (failure ParserTimeout))
      /\ fetches (fst (read_swagger_api never_resolves answers_html no_types plain https 64
                         (defaults "https://api.example.com/docs"))) = 0%nat).
Proof.
  split; [reflexivity|].
  apply (fallback_once_and_both_messages never_resolves answers_html no_types plain
           https 64 (defaults "https://api.example.com/docs") ParserTimeout).
  reflexivity.
Defined.

Example both_failures_reported :
  read_swagger_api never_resolves answers_html no_types plain https 64
    (defaults "https://api.example.com/docs")
  = ([Dereference "https://api.example.com/docs"; Fetch "https://api.example.com/docs"],
     Text true
       (failure (BothFailed (message ParserTimeout)
          (message (ContentTypeError "Text/HTML; charset=utf-8" "<html>hello</html>"))))).
Proof. vm_compute. reflexivity. Qed.

Lemma zero_match_returns_diagnostic_witness :
  getSwaggerApi (serves two_paths_document) unreachable (url unmatched_args)
    (use_fallback unmatched_args)
  = ([Dereference "https://api.example.com/docs"], Ok two_paths_document)
  /\ filterPaths (doc_heap two_paths_document) (doc_root two_paths_document)
       (path_pattern unmatched_args) (tag unmatched_args) = Ok ([], 0%Z)
  /\ run two_paths_document unmatched_args
  = ([Dereference "https://api.example.com/docs"], Text false (no_match unmatched_args))
  /\ stages (fst (run two_paths_document unmatched_args)) = []
  /\ (forall k, given (path_pattern unmatched_args) = Some k ->
        includes (no_match unmatched_args) k = true)
  /\ (forall t, given (tag unmatched_args) = Some t ->
        includes (no_match unmatched_args) t = true).
Proof.
  split; [vm_compute; reflexivity|]. split; [vm_compute; reflexivity|].
  apply (zero_match_returns_diagnostic (serves two_paths_document) unreachable no_types
           plain https 64 unmatched_args two_paths_document
           [Dereference "https://api.example.com/docs"] 0).
  - vm_compute. reflexivity.
  - vm_compute. reflexivity.
Defined.

(** C1, evaluated. The tool does not read [max_depth]: its result is the
    same for every value of the argument, the bound it passes to the
    sanitizer being the constant 30. With [max_depth: 1], an accepted value,
    the payload for the one-path document still holds the object [filters]
    at depth 2 and the summary at depth 4, where a sanitizer bounded by 1
    leaves truncation markers at depth 2. *)
Theorem max_depth_is_not_read :
  (forall dereference fetch compile template url_scheme stack a k,
     read_swagger_api dereference fetch compile template url_scheme stack
       (with_max_depth k a)
     = read_swagger_api dereference fetch compile template url_scheme stack a)
  /\ accepted shallow_args = true
  /\ max_depth shallow_args = 1%Z
  /\ run ping_document shallow_args
     = ([Dereference "https://api.example.com/docs"; Normalize; Sanitize],
        Payload ping_payload "")
  /\ descend ∅ ping_payload [0%nat; 2%nat]
     = Some (VNewObj [("path_pattern", undefined); ("tag", str "Health")])
  /\ descend ∅ ping_payload [2%nat; 0%nat; 0%nat; 0%nat] = Some (str "Ping")
  /\ sanitize ∅ ping_payload 1
     = Some (VNewObj
         [("_meta", VNewObj [("url", truncated 1);
                             ("filtered_count", truncated 1);
                             ("filters", truncated 1)]);
          ("baseUrl", str "https://api.example.com/v1");
          ("paths", VNewObj [("/ping", truncated 1)])]).
Proof.
  split; [intros; destruct a; reflexivity|].
  repeat split; vm_compute; reflexivity.
Qed.

(** C2, evaluated. The tool reads neither [limit_paths] nor [limit_ops]:
    its result is the same for every value of the two. With both set to 1
    and no filter, the payload for a document with two paths and three
    operations holds the two paths and the three operations. *)
Theorem limits_are_not_read :
  (forall dereference fetch compile template url_scheme stack a paths ops,
     read_swagger_api dereference fetch compile template url_scheme stack
       (with_limits paths ops a)
     = read_swagger_api dereference fetch compile template url_scheme stack a)
  /\ accepted limited_args = true
  /\ limit_paths limited_args = 1%Z
  /\ limit_ops limited_args = 1%Z
  /\ run two_paths_document limited_args
     = ([Dereference "https://api.example.com/docs"; Normalize; Sanitize],
        Payload two_paths_payload "")
  /\ length (entries ∅ (get_prop ∅ two_paths_payload "paths")) = 2%nat
  /\ operation_count (get_prop ∅ two_paths_payload "paths") = 3%nat.
Proof.
  split; [intros; destruct a; reflexivity|].
  repeat split; vm_compute; reflexivity.
Qed.

(** The sibling case in a payload: two operations answer with the same
    schema object; the payload shows the schema under the first path and the
    circular-reference marker under the second
    ([paths["/b"].get.responses["200"].schema]). *)
Example shared_schema_marked_circular :
  (p ← payload_of (run shared_schema_document plain_args);
   descend ∅ p [2%nat; 0%nat; 0%nat; 6%nat; 0%nat; 2%nat])
  = Some (VNewObj [("type", str "string")])
  /\ (p ← payload_of (run shared_schema_document plain_args);
      descend ∅ p [2%nat; 1%nat; 0%nat; 6%nat; 0%nat; 2%nat])
     = Some circular.
Proof. split; vm_compute; reflexivity. Qed.

(** The end-to-end example of the specification: one retained path and the
    composed base URL. *)
Example ping_by_tag :
  run ping_document
    (Args "https://api.example.com/docs" true None (Some "Health") false false 20 50 200)
  = ([Dereference "https://api.example.com/docs"; Normalize; Sanitize],
     Payload ping_payload "").
Proof. vm_compute. reflexivity. Qed.

End HandlerProps.

(** * Further properties of the file *)

(** ** Sanitizer: fixed points and cycles *)

Module SanitizerMore.
Import Sanitizer Trees SanitizerProps.

#[local] Arguments members : simpl never.

Section Loops.

Variable each : value -> gset loc -> option (value * gset loc).

(** A loop whose visits change neither the member nor the set changes
    nothing. *)
Lemma map_seen_fixed (items : list value) (seen : gset loc) :
  Forall (fun x => forall s, each x s = Some (x, s)) items ->
  map_seen each items seen = Some (items, seen).
Proof.
  induction 1 as [|x r Hx _ IH]; simpl; [reflexivity|].
  rewrite Hx. simpl. rewrite IH. reflexivity.
Qed.

Lemma forin_seen_fixed (fields : list (string * value)) (seen : gset loc) :
  Forall (fun kv => forall s, each (snd kv) s = Some (snd kv, s)) fields ->
  forin_seen each fields seen = Some (fields, seen).
Proof.
  induction 1 as [|[key x] r Hx _ IH]; simpl; [reflexivity|].
  simpl in Hx. rewrite Hx. simpl. rewrite IH. reflexivity.
Qed.

(** What holds of every visit's result holds of every member of the
    result of a loop. *)
Lemma map_seen_forallb (P : value -> bool) items seen r seen' :
  (forall x s y s', each x s = Some (y, s') -> P y = true) ->
  map_seen each items seen = Some (r, seen') -> forallb P r = true.
Proof.
  intros HP. revert seen r seen'.
  induction items as [|x xs IH]; intros seen r seen' H; simpl in H.
  - invert H. reflexivity.
  - step_some H as y1 s1 E1. step_some H as ys s2 E2. invert H. simpl.
    rewrite (HP _ _ _ _ E1), (IH _ _ _ E2). reflexivity.
Qed.

Lemma forin_seen_forallb (P : value -> bool) fields seen r seen' :
  (forall x s y s', each x s = Some (y, s') -> P y = true) ->
  forin_seen each fields seen = Some (r, seen') ->
  forallb (fun kv => P (snd kv)) r = true.
Proof.
  intros HP. revert seen r seen'.
  induction fields as [|[key x] xs IH]; intros seen r seen' H; simpl in H.
  - invert H. reflexivity.
  - step_some H as y1 s1 E1. step_some H as ys s2 E2. invert H. simpl.
    rewrite (HP _ _ _ _ E1), (IH _ _ _ E2). reflexivity.
Qed.

(** The set a visit receives, anywhere in a loop, contains the set the loop
    started with. *)
Hypothesis each_grows : forall x s y s', each x s = Some (y, s') -> s ⊆ s'.




End Loops.

(** A settled value comes back as it is, with the set untouched. *)
Lemma settled_fixed fuel h v depth maxDepth seen :
  settled maxDepth depth v = true ->
  (enough depth maxDepth <= fuel)%nat ->
  sanitizeRecursive fuel h v depth maxDepth seen = Some (v, seen).
Proof.
  unfold enough. revert v depth seen.
  induction fuel as [|fuel IH]; intros v depth seen Hv Hfuel; [lia|].
  cbn [sanitizeRecursive].
  destruct v as [p|l|items|fields]; cbn [settled] in Hv;
    destruct (Z.ltb_spec maxDepth depth) as [Hd|Hd].
  - destruct p as [| | | |s]; try discriminate.
    apply String.eqb_eq in Hv. subst s. reflexivity.
  - reflexivity.
  - discriminate.
  - discriminate.
  - discriminate.
  - unfold members. rewrite map_seen_fixed; [reflexivity|].
    apply List.Forall_forall. intros x Hx s. apply IH; [|lia].
    rewrite forallb_forall in Hv. apply Hv, Hx.
  - discriminate.
  - unfold members. rewrite forin_seen_fixed; [reflexivity|].
    apply List.Forall_forall. intros kv Hkv s. apply IH; [|lia].
    rewrite forallb_forall in Hv. apply (Hv kv), Hkv.
Qed.

(** Whatever a call returns is settled at the depth of the call. *)
Lemma sanitized_settled fuel h obj depth maxDepth seen out seen' :
  sanitizeRecursive fuel h obj depth maxDepth seen = Some (out, seen') ->
  settled maxDepth depth out = true.
Proof.
  revert obj depth seen out seen'.
  induction fuel as [|fuel IH]; intros obj depth seen out seen' H; [discriminate|].
  cbn [sanitizeRecursive] in H.
  destruct (Z.ltb_spec maxDepth depth) as [Hd|Hd].
  { invert H. cbn [truncated str settled].
    destruct (Z.ltb_spec maxDepth depth); [apply String.eqb_refl|lia]. }
  assert (Hm : forall n s,
    members (fun v s => sanitizeRecursive fuel h v (depth + 1) maxDepth s) n s
    = Some (out, seen') -> settled maxDepth depth out = true).
  { intros n s Hn. destruct n as [items|fields]; unfold members in Hn;
      step_some Hn as r s1 E; invert Hn; cbn [settled];
      (destruct (Z.ltb_spec maxDepth depth); [lia|]).
    - eapply map_seen_forallb; [|exact E]. intros x s0 y s' Hy. exact (IH _ _ _ _ _ Hy).
    - eapply forin_seen_forallb with (P := settled maxDepth (depth + 1)); [|exact E].
      intros x s0 y s' Hy. exact (IH _ _ _ _ _ Hy). }
  destruct obj as [p|l|items|fields].
  - invert H. cbn [settled]. destruct (Z.ltb_spec maxDepth depth); [lia|reflexivity].
  - destruct (decide (l ∈ seen)); [|exact (Hm _ _ H)].
    invert H. cbn [circular str settled].
    destruct (Z.ltb_spec maxDepth depth); [lia|reflexivity].
  - exact (Hm _ _ H).
  - exact (Hm _ _ H).
Qed.

(** X1. Sanitizing is idempotent: what [sanitize] returns, [sanitize] with
    the same bound returns unchanged, whatever heap it is given. *)
Theorem sanitize_idempotent (h h' : heap) (obj out : value) (maxDepth : Z) :
  sanitize h obj maxDepth = Some out ->
  sanitize h' out maxDepth = Some out.
Proof.
  unfold sanitize. intros H.
  destruct (sanitizeRecursive (enough 0 maxDepth) h obj 0 maxDepth ∅)
    as [[o s]|] eqn:E; [|discriminate H].
  injection H as <-. rewrite (settled_fixed _ h' o 0 maxDepth ∅); [reflexivity| |lia].
  exact (sanitized_settled _ _ _ _ _ _ _ _ E).
Qed.

Lemma sanitize_idempotent_witness :
  sanitize siblings (VRef 0%nat) 30
  = Some (VNewObj [("a", VNewObj [("x", num 1)]); ("b", circular)])
  /\ sanitize ∅ (VNewObj [("a", VNewObj [("x", num 1)]); ("b", circular)]) 30
     = Some (VNewObj [("a", VNewObj [("x", num 1)]); ("b", circular)]).
Proof.
  split; [vm_compute; reflexivity|].
  apply (sanitize_idempotent siblings ∅ (VRef 0%nat)). vm_compute. reflexivity.
Defined.

(** X2. A tree of literals and primitives that holds no reference and whose
    composite nodes and primitives all lie within the bound is returned as an
    equal copy: nothing is truncated and nothing is marked. *)
Theorem sanitize_settled_unchanged (h : heap) (v : value) (maxDepth : Z) :
  settled maxDepth 0 v = true ->
  sanitize h v maxDepth = Some v.
Proof.
  intros Hv. unfold sanitize.
  rewrite (settled_fixed _ h v 0 maxDepth ∅ Hv); [reflexivity|lia].
Qed.

Lemma sanitize_settled_unchanged_witness :
  settled 4 0 nested = true /\ sanitize ∅ nested 4 = Some nested.
Proof.
  split; [vm_compute; reflexivity|].
  apply (sanitize_settled_unchanged ∅ nested 4). vm_compute. reflexivity.
Defined.




End SanitizerMore.

(** ** Mock synthesis, parameter schemas and operations *)

Module SchemaMore.
Import Mock Normalizer Trees.

(** What a schema in the heap reads as. *)
Lemma get_prop_ref h l fields key :
  node_of h l = NObj fields -> get_prop h (VRef l) key = get_field fields key.
Proof. intros H. unfold get_prop, shape. rewrite H. reflexivity. Qed.

(** X4. On an array schema whose [items] is the schema itself and that
    carries no truthy example, the synthesis does not finish within any
    number of nested calls: it recurses until the engine's stack is
    exhausted. *)
Theorem mock_never_finishes_on_self_items
    (fuel : nat) (h : heap) (l : loc) (fields : list (string * value)) :
  node_of h l = NObj fields ->
  truthy (get_field fields "example") = false ->
  is_str (get_field fields "type") "array" = true ->
  get_field fields "items" = VRef l ->
  generateMockData fuel h (VRef l) = None.
Proof.
  intros Hnode Hexample Htype Hitems.
  induction fuel as [|fuel IH]; [reflexivity|].
  cbn [generateMockData truthy negb].
  rewrite !(get_prop_ref _ _ _ _ Hnode), Hexample, Htype, Hitems.
  destruct (is_str (get_field fields "type") "object") eqn:Hobj.
  - destruct (get_field fields "type") as [[| | | |s]| | |]; try discriminate.
    simpl in Htype, Hobj. apply String.eqb_eq in Htype, Hobj. congruence.
  - rewrite IH. reflexivity.
Qed.

Lemma mock_never_finishes_on_self_items_witness :
  node_of schema_self_items 0%nat = NObj [("type", str "array"); ("items", VRef 0%nat)]
  /\ generateMockData 1000 schema_self_items (VRef 0%nat) = None.
Proof.
  split; [vm_compute; reflexivity|].
  apply (mock_never_finishes_on_self_items 1000 schema_self_items 0%nat
           [("type", str "array"); ("items", VRef 0%nat)]); vm_compute; reflexivity.
Defined.



(** X6. [extractParameterSchema]: an explicit truthy [schema] is returned
    as it is, whatever flat fields the parameter also has; without one, a
    parameter with a truthy [type] gets a fresh schema that reads [type] and
    [default] exactly as the parameter does (a default of [0], [false] or the
    empty string is kept) and reads [format], [items] and [enum] as the
    parameter does when they are truthy and as absent otherwise; and a
    parameter with neither, or a value that is no object, has no schema. *)
Theorem parameter_schema_cases (h h' : heap) (param : value) :
  (truthy param && typeof_object param = false ->
   extractParameterSchema h param = undefined)
  /\ (truthy param && typeof_object param = true ->
      (truthy (get_prop h param "schema") = true ->
       extractParameterSchema h param = get_prop h param "schema")
      /\ (truthy (get_prop h param "schema") = false ->
          truthy (get_prop h param "type") = false ->
          extractParameterSchema h param = undefined)
      /\ (truthy (get_prop h param "schema") = false ->
          truthy (get_prop h param "type") = true ->
          get_prop h' (extractParameterSchema h param) "type" = get_prop h param "type"
          /\ get_prop h' (extractParameterSchema h param) "default"
             = get_prop h param "default"
          /\ get_prop h' (extractParameterSchema h param) "format"
             = or_else (get_prop h param "format") undefined
          /\ get_prop h' (extractParameterSchema h param) "items"
             = or_else (get_prop h param "items") undefined
          /\ get_prop h' (extractParameterSchema h param) "enum"
             = or_else (get_prop h param "enum") undefined
          /\ incl (keys h' (extractParameterSchema h param))
                  ["type"; "format"; "items"; "enum"; "default"])).
Proof.
  unfold extractParameterSchema. split.
  - intros H. apply andb_false_iff in H. destruct H as [->| ->]; simpl;
      [reflexivity|rewrite orb_true_r; reflexivity].
  - intros H. apply andb_true_iff in H. destruct H as [-> ->]. cbn [negb orb].
    split; [intros ->; reflexivity|]. split; [intros -> ->; reflexivity|].
    intros -> ->. unfold or_else.
    generalize (get_prop h param "type") (get_prop h param "format")
               (get_prop h param "items") (get_prop h param "enum")
               (get_prop h param "default").
    intros t f i e d.
    destruct (truthy f), (truthy i), (truthy e), d as [[| | | |]| | |];
      cbn; (repeat split); intros k Hk; cbn in Hk; cbn; tauto.
Qed.

(** *** Operations *)

Lemma HTTP_METHODS_has_In method :
  HTTP_METHODS_has method = true -> In method HTTP_METHOD_ORDER.
Proof.
  unfold HTTP_METHODS_has. rewrite existsb_exists.
  intros (m & Hm & Heq). apply String.eqb_eq in Heq. subst. exact Hm.
Qed.

Lemma NoDup_map_filter {A B : Type} (f : A -> B) (P : A -> bool) (l : list A) :
  List.NoDup (map f l) -> List.NoDup (map f (List.filter P l)).
Proof.
  induction l as [|x l IH]; simpl; intros H; [constructor|].
  apply List.NoDup_cons_iff in H. destruct H as [Hx Hl].
  destruct (P x); simpl; [|exact (IH Hl)].
  apply List.NoDup_cons; [|exact (IH Hl)].
  intros Hin. apply Hx. apply in_map_iff in Hin. destruct Hin as (y & Hy & Hin).
  apply filter_In in Hin. apply in_map_iff. exists y. tauto.
Qed.

(** X7. Every operation [getOperations] returns is a truthy object stored
    under one of the eight recognised method keys, and every such member is
    returned; a value that is no object has no operation; and since the keys
    of an object are distinct, an object has at most eight operations. *)
Theorem operations_are_recognised_methods (h : heap) (pathItem : value) :
  (forall op, In op (getOperations h pathItem) <->
     truthy pathItem && typeof_object pathItem = true
     /\ exists method,
          In (method, op) (entries h pathItem)
          /\ In method HTTP_METHOD_ORDER
          /\ truthy op && typeof_object op = true)
  /\ (List.NoDup (keys h pathItem) -> (length (getOperations h pathItem) <= 8)%nat).
Proof.
  unfold getOperations. split.
  - intros op.
    destruct (truthy pathItem && typeof_object pathItem) eqn:Hobj.
    + apply andb_true_iff in Hobj. destruct Hobj as [-> ->]. cbn [negb orb].
      rewrite in_map_iff. split.
      * intros ([method op'] & [= <-] & Hin). apply filter_In in Hin.
        destruct Hin as [Hin Hp]. cbn [fst snd] in Hp.
        apply andb_true_iff in Hp. destruct Hp as [Hp Ho].
        apply andb_true_iff in Hp. destruct Hp as [Hm Ht].
        split; [reflexivity|]. exists method. split; [exact Hin|].
        split; [exact (HTTP_METHODS_has_In _ Hm)|]. rewrite Ht, Ho. reflexivity.
      * intros (_ & method & Hin & Hm & Hop). exists (method, op).
        split; [reflexivity|]. apply filter_In. split; [exact Hin|]. cbn [fst snd].
        apply andb_true_iff in Hop. destruct Hop as [-> ->].
        rewrite !andb_true_r. unfold HTTP_METHODS_has. apply existsb_exists.
        exists method. split; [exact Hm|apply String.eqb_refl].
    + apply andb_false_iff in Hobj.
      assert (negb (truthy pathItem) || negb (typeof_object pathItem) = true) as ->
        by (destruct Hobj as [-> | ->]; simpl; [reflexivity|apply orb_true_r]).
      split; [intros []|intros [H _]; discriminate H].
  - intros Hnodup.
    destruct (negb (truthy pathItem) || negb (typeof_object pathItem));
      [simpl; lia|].
    rewrite length_map.
    rewrite <- (length_map fst).
    change 8%nat with (length HTTP_METHOD_ORDER).
    apply List.NoDup_incl_length.
    + apply NoDup_map_filter. exact Hnodup.
    + intros method Hin. apply in_map_iff in Hin. destruct Hin as ([m op] & [= <-] & Hin).
      apply filter_In in Hin. destruct Hin as [_ Hp]. cbn [fst snd] in Hp.
      apply andb_true_iff in Hp. destruct Hp as [Hp _].
      apply andb_true_iff in Hp. destruct Hp as [Hm _].
      exact (HTTP_METHODS_has_In _ Hm).
Qed.

Lemma operations_are_recognised_methods_witness :
  List.NoDup (keys (Net.doc_heap Handler.two_paths_document) (VRef 2%nat))
  /\ (length (getOperations (Net.doc_heap Handler.two_paths_document) (VRef 2%nat)) <= 8)%nat.
Proof.
  split; [vm_compute; repeat constructor; simpl; intuition discriminate|].
  apply (operations_are_recognised_methods
           (Net.doc_heap Handler.two_paths_document) (VRef 2%nat)).
  vm_compute. repeat constructor; simpl; intuition discriminate.
Defined.

End SchemaMore.

(** ** Normalizer: what [simplifyPaths] keeps, defaults and throws *)

Module NormalizerMore.
Import Mock Normalizer NormalizerProps SchemaMore.

(** The key of an array index starts with a digit: it is no method. *)
Lemma index_key_not_method (i : nat) : HTTP_METHODS_has (index_key i) = false.
Proof.
  unfold index_key.
  assert (H : Nat.to_uint i <> Decimal.Nil).
  { rewrite <- (Unsigned.of_to i) at 1. rewrite Unsigned.to_of. apply unorm_nonnil. }
  destruct (Nat.to_uint i); [contradiction| | | | | | | | | |]; reflexivity.
Qed.

Lemma indexed_no_method {A : Type} (P : string * A -> bool) (i : nat) (l : list A) :
  List.filter (fun kv => HTTP_METHODS_has (fst kv) && P kv) (indexed i l) = [].
Proof.
  revert i. induction l as [|x l IH]; intros i; simpl; [reflexivity|].
  rewrite index_key_not_method. simpl. apply IH.
Qed.

(** The two tests for "an operation" agree: truthy and an object, or an
    object and not [null]. *)
Lemma operation_tests_agree (v : value) :
  truthy v && typeof_object v = typeof_object v && negb (nullish v).
Proof. destruct v as [[| | | |]| | |]; simpl; try reflexivity; apply andb_false_r. Qed.

(** The entries [simplifyPaths] normalises under a path are the entries
    whose values [getOperations] returns. *)
Lemma normalised_entries_are_operations (h : heap) (pathValue : value) :
  truthy pathValue = true ->
  map snd (List.filter (fun kv => HTTP_METHODS_has (fst kv)
                                  && typeof_object (snd kv) && negb (nullish (snd kv)))
                       (entries h pathValue))
  = getOperations h pathValue.
Proof.
  intros Ht. unfold getOperations. rewrite Ht. cbn [negb orb].
  destruct (typeof_object pathValue) eqn:Hobj; cbn [negb].
  - f_equal. apply filter_ext. intros [k v]. cbn [fst snd].
    rewrite <- !andb_assoc. f_equal. symmetry. apply operation_tests_agree.
  - destruct pathValue as [[| | | |s]| | |]; try discriminate; try reflexivity.
    unfold entries.
    rewrite (filter_ext _ (fun kv => HTTP_METHODS_has (fst kv)
               && (typeof_object (snd kv) && negb (nullish (snd kv)))))
      by (intros; symmetry; apply andb_assoc).
    rewrite indexed_no_method. reflexivity.
Qed.

Lemma map_fields_Forall2 (f : value -> result value) (l r : list (string * value)) :
  map_fields f l = Ok r ->
  Forall2 (fun kv kv' => fst kv' = fst kv /\ f (snd kv) = Ok (snd kv')) l r.
Proof.
  revert r. unfold map_fields.
  induction l as [|kv l IH]; intros r H; simpl in H.
  - injection H as <-. constructor.
  - step_ok H y E. step_ok E y' E'. injection E as <-.
    step_ok H ys Es. injection H as <-. constructor; [split; [reflexivity|exact E']|].
    apply IH. reflexivity.
Qed.

(** X8. The normalised document has one entry per entry of the input that
    carries a value, under the same key and in the same order; under each,
    one normalised operation per operation [getOperations] finds there, in
    the same order, each the normalisation of that operation, and stored
    under a recognised method: every other member of a path item ([parameters],
    [$ref], extensions) is left out. *)
Theorem normalised_paths_and_operations (h : heap) (paths simplified : value) :
  simplifyPaths h paths = Ok simplified ->
  Forall2 (fun kv item =>
      fst item = fst kv
      /\ Forall2 (fun op nop => simplifyOperation h op = Ok nop)
           (getOperations h (snd kv)) (map snd (entries ∅ (snd item)))
      /\ Forall (fun method => In method HTTP_METHOD_ORDER) (keys ∅ (snd item)))
    (List.filter (fun kv => truthy (snd kv)) (entries h paths))
    (entries ∅ simplified).
Proof.
  unfold simplifyPaths. intros H. step_ok H r Er. injection H as <-.
  cbn [entries shape]. apply map_fields_Forall2 in Er.
  assert (Htruthy : Forall (fun kv : string * value => truthy (snd kv) = true)
            (List.filter (fun kv => truthy (snd kv)) (entries h paths))).
  { apply List.Forall_forall. intros kv Hkv. apply filter_In in Hkv. tauto. }
  revert Htruthy. induction Er as [|kv item l r [Hkey Hitem] _ IH]; intros Htruthy;
    [constructor|].
  apply List.Forall_cons_iff in Htruthy. destruct Htruthy as [Ht Htruthy].
  constructor; [|exact (IH Htruthy)].
  split; [exact Hkey|]. unfold simplifyPathItem in Hitem.
  step_ok Hitem ops Eops. injection Hitem as <-. cbn [entries shape].
  rewrite <- (normalised_entries_are_operations h _ Ht).
  pose proof (map_fields_keys _ _ _ Eops) as Hkeys.
  apply map_fields_Forall2 in Eops. unfold keys. cbn [entries shape]. split.
  - clear Hkeys. induction Eops as [|x y xs ys [_ Hop] _ IHops]; simpl; constructor;
      assumption.
  - rewrite Hkeys. apply List.Forall_forall. intros method Hin.
    apply in_map_iff in Hin. destruct Hin as (x & <- & Hx).
    apply filter_In in Hx. destruct Hx as [_ Hx].
    apply andb_true_iff in Hx. destruct Hx as [Hx _].
    apply andb_true_iff in Hx. destruct Hx as [Hx _].
    exact (HTTP_METHODS_has_In _ Hx).
Qed.

Lemma normalised_paths_and_operations_witness :
  simplifyPaths doc_both (VRef 0%nat) = Ok simplified_both
  /\ Forall2 (fun kv item =>
      fst item = fst kv
      /\ Forall2 (fun op nop => simplifyOperation doc_both op = Ok nop)
           (getOperations doc_both (snd kv)) (map snd (entries ∅ (snd item)))
      /\ Forall (fun method => In method HTTP_METHOD_ORDER) (keys ∅ (snd item)))
    (List.filter (fun kv => truthy (snd kv)) (entries doc_both (VRef 0%nat)))
    (entries ∅ simplified_both).
Proof.
  split; [vm_compute; reflexivity|].
  apply (normalised_paths_and_operations doc_both (VRef 0%nat) simplified_both).
  vm_compute. reflexivity.
Defined.

Lemma or_else_not_nullish (a b : value) :
  nullish b = false -> nullish (or_else a b) = false.
Proof.
  intros Hb. unfold or_else. destruct (truthy a) eqn:Ha; [|exact Hb].
  destruct a as [[| | | |]| | |]; try reflexivity; discriminate.
Qed.

(** X9. A normalised operation always has the seven fields [summary],
    [description], [operationId], [tags], [parameters], [requestBody] and
    [responses], in this order; the first four are never [null] or
    [undefined] (an absent or empty text becomes the empty string, absent
    tags the empty array); [parameters] is a fresh array and [responses] a
    fresh object. *)
Theorem normalised_operation_fields (h : heap) (op o : value) :
  simplifyOperation h op = Ok o ->
  keys ∅ o = Shapes.operation_keys
  /\ Forall (fun key => nullish (get_prop ∅ o key) = false)
       ["summary"; "description"; "operationId"; "tags"]
  /\ (truthy (get_prop h op "summary") = false -> get_prop ∅ o "summary" = str "")
  /\ (truthy (get_prop h op "description") = false -> get_prop ∅ o "description" = str "")
  /\ (truthy (get_prop h op "operationId") = false -> get_prop ∅ o "operationId" = str "")
  /\ (truthy (get_prop h op "tags") = false -> get_prop ∅ o "tags" = VNewArr [])
  /\ (exists ps, get_prop ∅ o "parameters" = VNewArr ps)
  /\ (exists rs, get_prop ∅ o "responses" = VNewObj rs).
Proof.
  unfold simplifyOperation. intros H. step_ok H ps Eps. step_ok H rs Ers.
  injection H as <-. cbn. split; [reflexivity|].
  split; [repeat constructor; apply or_else_not_nullish; reflexivity|].
  unfold or_else.
  split; [intros ->; reflexivity|]. split; [intros ->; reflexivity|].
  split; [intros ->; reflexivity|]. split; [intros ->; reflexivity|].
  split.
  - unfold simplifyParameters in Eps. destruct (nullish _); [injection Eps as <-; eauto|].
    destruct (items_of h _); [|discriminate Eps]. step_ok Eps r Er.
    injection Eps as <-. eauto.
  - unfold simplifyResponses in Ers. step_ok Ers r Er. injection Ers as <-. eauto.
Qed.

Lemma normalised_operation_fields_witness :
  exists o,
    simplifyOperation Shapes.legacy_operation (VRef 0%nat) = Ok o
    /\ keys ∅ o = Shapes.operation_keys
    /\ get_prop ∅ o "summary" = str ""
    /\ get_prop ∅ o "tags" = VNewArr [].
Proof.
  destruct (simplifyOperation Shapes.legacy_operation (VRef 0%nat)) as [o|e] eqn:E;
    [|vm_compute in E; discriminate E].
  exists o. split; [reflexivity|].
  destruct (normalised_operation_fields Shapes.legacy_operation (VRef 0%nat) o E)
    as (Hk & _ & Hs & _ & _ & Ht & _).
  split; [exact Hk|]. split; [apply Hs|apply Ht]; vm_compute; reflexivity.
Defined.

Lemma map_result_all_ok {A B : Type} (f : A -> result B) (g : A -> B) (l : list A) :
  Forall (fun x => f x = Ok (g x)) l -> map_result f l = Ok (map g l).
Proof.
  induction 1 as [|x l Hx _ IH]; simpl; [reflexivity|]. rewrite Hx. simpl.
  rewrite IH. reflexivity.
Qed.

Lemma map_result_some_throw {A B : Type} (f : A -> result B) (l : list A) :
  Exists (fun x => exists e, f x = Throw e) l -> exists e, map_result f l = Throw e.
Proof.
  induction 1 as [x l [e Hx]|x l _ [e IH]]; simpl.
  - rewrite Hx. simpl. eauto.
  - destruct (f x); simpl; [rewrite IH; simpl|]; eauto.
Qed.

Lemma simplifyParameter_cases (h : heap) (p : value) :
  (nullish p = false -> simplifyParameter h p = Ok (Shapes.normalised_parameter h p))
  /\ (nullish p = true -> exists e, simplifyParameter h p = Throw e).
Proof.
  unfold simplifyParameter, member. split; intros ->; simpl; eauto.
Qed.

(** X10. The parameters of an operation: absent parameters normalise to
    the empty array; an array of parameters none of which is [null] or
    [undefined] normalises to the array of their literals, one per
    parameter in the same order, each with the schema
    [extractParameterSchema] gives it; an array that holds a [null] makes the
    normalisation throw, and so does a [parameters] that is no array. *)
Theorem parameters_normalised_or_throw (h : heap) (op : value) :
  (nullish (get_prop h op "parameters") = true ->
   simplifyParameters h op = Ok (VNewArr []))
  /\ (nullish (get_prop h op "parameters") = false ->
      items_of h (get_prop h op "parameters") = None ->
      exists e, simplifyParameters h op = Throw e)
  /\ (forall items,
        items_of h (get_prop h op "parameters") = Some items ->
        (Forall (fun p => nullish p = false) items ->
         simplifyParameters h op
         = Ok (VNewArr (map (Shapes.normalised_parameter h) items)))
        /\ (Exists (fun p => nullish p = true) items ->
            exists e, simplifyParameters h op = Throw e)).
Proof.
  unfold simplifyParameters. split; [intros ->; reflexivity|].
  split; [intros -> ->; eauto|].
  intros items Hitems.
  assert (nullish (get_prop h op "parameters") = false) as ->.
  { unfold items_of in Hitems.
    destruct (get_prop h op "parameters") as [p| | |]; [discriminate|reflexivity..]. }
  rewrite Hitems. split.
  - intros Hall. rewrite (map_result_all_ok _ (Shapes.normalised_parameter h)).
    + reflexivity.
    + eapply Forall_impl; [exact Hall|]. intros p Hp.
      exact (proj1 (simplifyParameter_cases h p) Hp).
  - intros Hex.
    destruct (map_result_some_throw (simplifyParameter h) items) as [e He].
    + eapply Exists_impl; [exact Hex|]. intros p Hp.
      exact (proj2 (simplifyParameter_cases h p) Hp).
    + rewrite He. simpl. eauto.
Qed.

Lemma find_first {A : Type} (f : A -> bool) (pre : list A) (x : A) (post : list A) :
  Forall (fun y => f y = false) pre -> f x = true ->
  find f (pre ++ x :: post)%list = Some x.
Proof.
  induction 1 as [|y pre Hy _ IH]; intros Hx; simpl.
  - rewrite Hx. reflexivity.
  - rewrite Hy. exact (IH Hx).
Qed.

Lemma find_none_all {A : Type} (f : A -> bool) (l : list A) :
  Forall (fun y => f y = false) l -> find f l = None.
Proof. induction 1 as [|y l Hy _ IH]; simpl; [reflexivity|]. rewrite Hy. exact IH. Qed.

(** X11. The request body: a [requestBody] that is an object is used even
    when the parameters hold a body parameter; without one, the first
    parameter that is an object with [in] equal to "body" is used, with the
    schema [extractParameterSchema] gives it; and when the parameters are no
    array or hold no such parameter the request body is [undefined]. *)
Theorem request_body_precedence (h : heap) (op : value) :
  (truthy (get_prop h op "requestBody") && typeof_object (get_prop h op "requestBody")
   = true ->
   simplifyRequestBody h op = Shapes.modern_body h (get_prop h op "requestBody"))
  /\ (truthy (get_prop h op "requestBody") && typeof_object (get_prop h op "requestBody")
      = false ->
      (forall pre p post,
         items_of h (get_prop h op "parameters") = Some (pre ++ p :: post)%list ->
         Forall (fun q => Shapes.is_body_parameter h q = false) pre ->
         Shapes.is_body_parameter h p = true ->
         simplifyRequestBody h op = Shapes.legacy_body h p)
      /\ (forall items,
            items_of h (get_prop h op "parameters") = Some items ->
            Forall (fun q => Shapes.is_body_parameter h q = false) items ->
            simplifyRequestBody h op = undefined)
      /\ (items_of h (get_prop h op "parameters") = None ->
          simplifyRequestBody h op = undefined)).
Proof.
  unfold simplifyRequestBody. split; [intros ->; reflexivity|].
  intros ->. split; [|split].
  - intros pre p post -> Hpre Hp.
    change (fun p0 => truthy p0 && typeof_object p0 && is_str (get_prop h p0 "in") "body")
      with (Shapes.is_body_parameter h).
    rewrite (find_first _ _ _ _ Hpre Hp). cbn [from_option id].
    unfold Shapes.is_body_parameter in Hp.
    apply andb_true_iff in Hp. destruct Hp as [Hp _].
    apply andb_true_iff in Hp. destruct Hp as [-> _]. reflexivity.
  - intros items -> Hall.
    change (fun p0 => truthy p0 && typeof_object p0 && is_str (get_prop h p0 "in") "body")
      with (Shapes.is_body_parameter h).
    rewrite (find_none_all _ _ Hall). reflexivity.
  - intros ->. reflexivity.
Qed.

(** X12. The responses of an operation normalise exactly when none of them
    is [null] or [undefined]; a [null] response makes the normalisation of
    the operation, and with it [simplifyPaths], throw. *)
Theorem responses_normalise_iff_none_null (h : heap) (op : value) :
  (exists r, simplifyResponses h op = Ok r)
  <-> Forall (fun kv => nullish (snd kv) = false)
        (entries h (or_else (get_prop h op "responses") (VNewObj []))).
Proof.
  unfold simplifyResponses.
  generalize (entries h (or_else (get_prop h op "responses") (VNewObj []))).
  intros l. split.
  - intros [r H]. step_ok H fields E. clear H r. apply map_fields_Forall2 in E.
    induction E as [|kv kv' l r [_ Hkv] _ IH]; constructor; [|exact IH].
    unfold simplifyResponse, member in Hkv. destruct (nullish (snd kv)); [|reflexivity].
    discriminate Hkv.
  - intros Hall. unfold map_fields.
    rewrite (map_result_all_ok _ (fun kv => (fst kv, descriptor h (snd kv)))).
    + simpl. eauto.
    + eapply Forall_impl; [exact Hall|]. intros kv Hkv.
      unfold simplifyResponse, member. rewrite Hkv. reflexivity.
Qed.

(** X13. A path item that is an array has no operation: the keys of an
    array are its indices, none of which is a method, so [getOperations]
    returns nothing and [simplifyPaths] normalises the item to an empty
    object. *)
Theorem array_has_no_operations (h : heap) (pathItem : value) :
  isArray h pathItem = true ->
  getOperations h pathItem = []
  /\ simplifyPathItem h pathItem = Ok (VNewObj []).
Proof.
  intros Harr.
  assert (Hent : exists items, entries h pathItem = indexed 0 items).
  { unfold isArray in Harr. unfold entries.
    destruct pathItem as [p|l|items|fields]; [discriminate| | |discriminate].
    - cbn [shape] in *. destruct (node_of h l); [eauto|discriminate].
    - eauto. }
  destruct Hent as [items Hent]. split.
  - unfold getOperations. destruct (_ || _); [reflexivity|]. rewrite Hent.
    rewrite (filter_ext _ (fun kv => HTTP_METHODS_has (fst kv)
               && (truthy (snd kv) && typeof_object (snd kv))))
      by (intros; symmetry; apply andb_assoc).
    rewrite indexed_no_method. reflexivity.
  - unfold simplifyPathItem. rewrite Hent.
    rewrite (filter_ext _ (fun kv => HTTP_METHODS_has (fst kv)
               && (typeof_object (snd kv) && negb (nullish (snd kv)))))
      by (intros; symmetry; apply andb_assoc).
    rewrite indexed_no_method. reflexivity.
Qed.

Lemma array_has_no_operations_witness :
  isArray Shapes.array_path_item (VRef 0%nat) = true
  /\ getOperations Shapes.array_path_item (VRef 0%nat) = []
  /\ simplifyPathItem Shapes.array_path_item (VRef 0%nat) = Ok (VNewObj []).
Proof.
  split; [vm_compute; reflexivity|].
  apply (array_has_no_operations Shapes.array_path_item (VRef 0%nat)).
  vm_compute. reflexivity.
Defined.

End NormalizerMore.

(** ** Acquisition: the outcomes of the two reads *)

Module NetMore.
Import Net NetProps.

Lemma length_append (a b : string) :
  String.length (a ++ b) = (String.length a + String.length b)%nat.
Proof.
  induction a as [|c a IH]; [reflexivity|].
  change (S (String.length (a ++ b)) = S (String.length a + String.length b)).
  rewrite IH. reflexivity.
Qed.


Section Network.

Variable dereference : string -> parsing.
Variable fetch : string -> settled response.

(** X14. When the resolver succeeds, [getSwaggerApi] returns its document
    and makes no raw read, whether the fallback is allowed or not; when the
    resolver fails, the fallback is allowed and the raw read succeeds,
    [getSwaggerApi] returns the raw document, after one raw read, and no
    error. *)
Theorem acquisition_succeeds (url : string) :
  (forall d use_fallback,
     snd (dereferenced dereference url) = Ok d ->
     getSwaggerApi dereference fetch url use_fallback = ([Dereference url], Ok d))
  /\ (forall parseError d,
        snd (dereferenced dereference url) = Throw parseError ->
        snd (fetchRawSwagger fetch url) = Ok d ->
        getSwaggerApi dereference fetch url true
        = ([Dereference url; Fetch url], Ok d)).
Proof.
  split.
  - intros d use_fallback H. exact (getSwaggerApi_resolved _ _ _ _ _ H).
  - intros parseError d H Hraw. rewrite (getSwaggerApi_fallback _ _ _ _ H), Hraw.
    reflexivity.
Qed.


End Network.

Example raw_read_json_any_case :
  snd (fetchRawSwagger
         (fun _ => Resolved (Response true 200 "OK" (Some "Application/JSON;charset=UTF-8")
                               (Rejected "not read") (Resolved empty_document))) "u")
  = Ok empty_document.
Proof. reflexivity. Qed.

End NetMore.

(** ** The tool: what a payload holds *)

Module HandlerMore.
Import Net Normalizer Mock Sanitizer Handler Tools.
Import SanitizerProps NormalizerProps HandlerProps.

#[local] Arguments members : simpl never.









Section Tool.

Variable dereference : string -> parsing.
Variable fetch : string -> settled response.
Variable compile : heap -> value -> settled string.
Variable template : heap -> value -> string.
Variable url_scheme : string -> string.
Variable stack : nat.


Lemma agree_refl (m : M tool_result) : agree m m.
Proof.
  split; [reflexivity|]. destruct (snd m) as [[isError text|json appended]|e]; simpl; auto.
Qed.

Lemma agree_bind {A : Type} (m : M A) (k k' : A -> M tool_result) :
  (forall x, agree (k x) (k' x)) -> agree (bindM m k) (bindM m k').
Proof.
  intros Hk. destruct m as [log [x|e]]; simpl; [|split; reflexivity].
  specialize (Hk x). destruct (k x) as [l r], (k' x) as [l' r'].
  destruct Hk as [Hl Hr]. simpl in *. subst l'. split; [reflexivity|exact Hr].
Qed.

(** X17. Type generation cannot fail the tool or change its payload: with
    any two generators, whatever text either returns and whatever error
    either rejects with, the tool logs the same events and returns the same
    text, or a payload with the same JSON; only the appended type text can
    differ. *)
Theorem type_generation_never_fails_the_tool
    (compile' : heap -> value -> settled string) (a : args) :
  fst (read_swagger_api dereference fetch compile template url_scheme stack a)
  = fst (read_swagger_api dereference fetch compile' template url_scheme stack a)
  /\ same_but_appended
       (snd (read_swagger_api dereference fetch compile template url_scheme stack a))
       (snd (read_swagger_api dereference fetch compile' template url_scheme stack a)).
Proof.
  assert (H : agree
    (read_swagger_api_body dereference fetch compile template url_scheme stack a)
    (read_swagger_api_body dereference fetch compile' template url_scheme stack a)).
  { unfold read_swagger_api_body.
    apply agree_bind. intros api. apply agree_bind. intros [filtered n].
    destruct (n =? 0)%Z; [apply agree_refl|].
    apply agree_bind. intros _. apply agree_bind. intros simplified.
    apply agree_bind. intros mocked. apply agree_bind. intros _.
    apply agree_bind. intros safe.
    destruct (generate_ts a); [|apply agree_refl].
    unfold appended_types. destruct (truthy _); [|apply agree_refl].
    destruct (compile (doc_heap api) _), (compile' (doc_heap api) _);
      split; reflexivity. }
  unfold read_swagger_api.
  destruct (read_swagger_api_body dereference fetch compile template url_scheme stack a)
    as [l [r|e]],
    (read_swagger_api_body dereference fetch compile' template url_scheme stack a)
    as [l' [r'|e']]; destruct H as [Hl Hr]; simpl in *; try contradiction.
  - split; assumption.
  - subst. split; auto.
Qed.

End Tool.


(** A generator that throws leaves its message in a comment after the
    JSON. *)
Example failing_types_are_reported :
  read_swagger_api (serves (Document
      {[ 0%nat := NObj [("definitions", VRef 1%nat); ("paths", VRef 2%nat)];
         1%nat := NObj [];
         2%nat := NObj [("/a", VRef 3%nat)];
         3%nat := NObj [] ]} (VRef 0%nat)))
    unreachable failing_types plain https 64
    (Args "https://api.example.com/docs" true None None true false 20 50 200)
  = ([Dereference "https://api.example.com/docs"; Normalize; Sanitize; TypeSynthesis],
     Payload
       (VNewObj [("_meta", VNewObj [("url", str "https://api.example.com/docs");
                                    ("filtered_count", num 1);
                                    ("filters", VNewObj [("path_pattern", undefined);
                                                         ("tag", undefined)])]);
                 ("baseUrl", str "");
                 ("paths", VNewObj [("/a", VNewObj [])])])
       (nl ++ nl ++ "/* [TS Generation Error]: "
        ++ "Refs should have been resolved by the resolver!" ++ " */")).
Proof. vm_compute. reflexivity. Qed.

End HandlerMore.

(** ** The other tools and the helpers *)

Module ToolsMore.
Import Net Normalizer Mock Handler Tools.
Import NetProps HandlerProps HandlerMore.

(** *** The health check *)

Section Health.

Variable dereference : string -> parsing.
Variable fetch : string -> settled response.
Variable template : heap -> value -> string.


End Health.


(** The health check counts the entry whose value is [null]; the read skips
    it. *)
Example null_entry_counted_not_read :
  pathCount (doc_heap null_entry_document) (doc_root null_entry_document) = 2%Z
  /\ filterPaths (doc_heap null_entry_document) (doc_root null_entry_document) None None
     = Ok ([("/y", VRef 2%nat)], 1%Z).
Proof. split; vm_compute; reflexivity. Qed.

(** *** The tag map *)

Lemma prim_eqb_eq (p q : prim) : prim_eqb p q = true -> p = q.
Proof.
  destruct p, q; simpl; try discriminate; try reflexivity; intros H.
  - apply Bool.eqb_prop in H. congruence.
  - apply Z.eqb_eq in H. congruence.
  - apply String.eqb_eq in H. congruence.
Qed.

Lemma same_key_eq (a b : value) : same_key a b = true -> a = b.
Proof.
  destruct a, b; simpl; try discriminate; intros H.
  - apply prim_eqb_eq in H. congruence.
  - apply Nat.eqb_eq in H. congruence.
Qed.

Lemma same_key_sym (a b : value) : same_key a b = same_key b a.
Proof.
  destruct a as [p| | |], b as [q| | |]; simpl; try reflexivity.
  - destruct p as [| |x|x|x], q as [| |y|y|y]; simpl; try reflexivity.
    + destruct x, y; reflexivity.
    + apply Z.eqb_sym.
    + apply String.eqb_sym.
  - apply Nat.eqb_sym.
Qed.

Lemma same_key_prim (p : prim) : same_key (VPrim p) (VPrim p) = true.
Proof.
  destruct p as [| |x|x|x]; simpl; try reflexivity.
  - destruct x; reflexivity.
  - apply Z.eqb_refl.
  - apply String.eqb_refl.
Qed.

Lemma map_has_set (m : tag_map) (k v k' : value) :
  map_has (map_set m k v) k'
  = map_has m k' || (negb (map_has m k) && same_key k k').
Proof.
  induction m as [|[k0 x] r IH]; simpl.
  - rewrite orb_false_r. reflexivity.
  - destruct (same_key k0 k) eqn:E; simpl.
    + rewrite orb_false_r. reflexivity.
    + rewrite IH. rewrite orb_assoc. reflexivity.
Qed.

Lemma map_get_set (m : tag_map) (k v k' : value) :
  map_get (map_set m k v) k' = if same_key k k' then v else map_get m k'.
Proof.
  unfold map_get. induction m as [|[k0 x] r IH]; simpl.
  - destruct (same_key k k'); reflexivity.
  - destruct (same_key k0 k) eqn:E; simpl.
    + apply same_key_eq in E. subst k0. destruct (same_key k k'); reflexivity.
    + destruct (same_key k0 k') eqn:E0; simpl; [|exact IH].
      destruct (same_key k k') eqn:E1; [|reflexivity].
      pose proof (same_key_eq _ _ E0). pose proof (same_key_eq _ _ E1).
      subst. congruence.
Qed.

Lemma map_set_distinct (m : tag_map) (k v : value) :
  distinct_keys m = true -> distinct_keys (map_set m k v) = true.
Proof.
  induction m as [|[k0 x] r IH]; simpl; intros H; [reflexivity|].
  apply andb_true_iff in H. destruct H as [H0 Hr].
  destruct (same_key k0 k) eqn:E; simpl.
  - rewrite H0, Hr. reflexivity.
  - rewrite map_has_set, (same_key_sym k k0), E, andb_false_r, orb_false_r, H0.
    simpl. apply IH, Hr.
Qed.

Lemma grows_from_refl (m : tag_map) : grows_from m m.
Proof.
  split; [intros k H; split; [exact H|reflexivity]|].
  intros k H H'. congruence.
Qed.

Lemma grows_from_trans (a b c : tag_map) :
  grows_from a b -> grows_from b c -> grows_from a c.
Proof.
  intros [H1 H2] [H3 H4]. split.
  - intros k H. destruct (H1 k H) as [Hb Eb]. destruct (H3 k Hb) as [Hc Ec].
    split; [exact Hc|congruence].
  - intros k H Hc. destruct (map_has b k) eqn:Hb.
    + destruct (H3 k Hb) as [_ Ec]. rewrite Ec. apply H2; assumption.
    + apply H4; assumption.
Qed.

Lemma reference_tags_step (m : tag_map) (tagName : value) :
  let m' := if map_has m tagName then m else map_set m tagName (str "") in
  grows_from m m' /\ (distinct_keys m = true -> distinct_keys m' = true)
  /\ (forall p, tagName = VPrim p -> map_has m' tagName = true).
Proof.
  destruct (map_has m tagName) eqn:E; cbn zeta.
  - split; [apply grows_from_refl|]. split; [tauto|]. intros p _. exact E.
  - split; [|split].
    + split.
      * intros k H. rewrite map_has_set, H, map_get_set. split; [reflexivity|].
        destruct (same_key tagName k) eqn:E'; [|reflexivity].
        apply same_key_eq in E'. congruence.
      * intros k H H'. rewrite map_has_set, H, E in H'. simpl in H'.
        rewrite map_get_set, H'. reflexivity.
    + apply map_set_distinct.
    + intros p ->. rewrite map_has_set, E, same_key_prim. reflexivity.
Qed.

Lemma reference_tags_grows (tagNames : list value) (m : tag_map) :
  grows_from m (reference_tags m tagNames)
  /\ (distinct_keys m = true -> distinct_keys (reference_tags m tagNames) = true)
  /\ (forall p, In (VPrim p) tagNames -> map_has (reference_tags m tagNames) (VPrim p) = true).
Proof.
  unfold reference_tags. revert m. induction tagNames as [|t r IH]; intros m.
  - split; [apply grows_from_refl|]. split; [tauto|]. intros p [].
  - cbn [fold_left].
    destruct (reference_tags_step m t) as (G & D & Hhas).
    destruct (IH (if map_has m t then m else map_set m t (str ""))) as (G' & D' & Hhas').
    split; [eapply grows_from_trans; eassumption|]. split; [tauto|].
    intros p [->|Hin]; [|apply Hhas', Hin].
    apply G'. eapply Hhas. reflexivity.
Qed.

Lemma scan_operation_grows (h : heap) (m : tag_map) (op : value) :
  grows_from m (scan_operation h m op)
  /\ (distinct_keys m = true -> distinct_keys (scan_operation h m op) = true).
Proof.
  unfold scan_operation.
  destruct (truthy op && truthy (get_prop h op "tags"));
    [|split; [apply grows_from_refl|tauto]].
  destruct (items_of h (get_prop h op "tags")) as [tagNames|];
    [|split; [apply grows_from_refl|tauto]].
  destruct (reference_tags_grows tagNames m) as (G & D & _). tauto.
Qed.

Lemma fold_grows {A : Type} (f : tag_map -> A -> tag_map) (l : list A) :
  (forall m x, grows_from m (f m x)
               /\ (distinct_keys m = true -> distinct_keys (f m x) = true)) ->
  forall m, grows_from m (fold_left f l m)
            /\ (distinct_keys m = true -> distinct_keys (fold_left f l m) = true).
Proof.
  intros Hf. induction l as [|x r IH]; intros m; cbn [fold_left].
  - split; [apply grows_from_refl|tauto].
  - destruct (Hf m x) as [G D]. destruct (IH (f m x)) as [G' D'].
    split; [eapply grows_from_trans; eassumption|tauto].
Qed.

Lemma fold_has {A : Type} (f : tag_map -> A -> tag_map) (l : list A) (x : A) (k : value) :
  (forall m y, grows_from m (f m y)
               /\ (distinct_keys m = true -> distinct_keys (f m y) = true)) ->
  (forall m, map_has (f m x) k = true) ->
  In x l -> forall m, map_has (fold_left f l m) k = true.
Proof.
  intros Hf Hx. induction l as [|y r IH]; intros Hin m; [destruct Hin|].
  cbn [fold_left]. destruct Hin as [->|Hin]; [|apply IH, Hin].
  apply (fold_grows f r Hf (f m x)), Hx.
Qed.

Lemma declare_tags_distinct (h : heap) (tags : list value) (m m' : tag_map) :
  declare_tags h tags m = Ok m' -> distinct_keys m = true -> distinct_keys m' = true.
Proof.
  revert m. induction tags as [|t r IH]; intros m H D; cbn [declare_tags] in H.
  - congruence.
  - destruct (member h t "name") as [name|e]; [|discriminate]. cbn [JS.bind] in H.
    destruct (member h t "description") as [description|e]; [|discriminate].
    cbn [JS.bind] in H. eapply IH; [exact H|]. apply map_set_distinct, D.
Qed.

Lemma declared_tags_distinct (h : heap) (api : value) (declared : tag_map) :
  declared_tags h api = Ok declared -> distinct_keys declared = true.
Proof.
  unfold declared_tags. intros H.
  destruct (member h api "tags") as [tags|e]; [|discriminate]. cbn [JS.bind] in H.
  destruct (truthy tags); [|injection H as <-; reflexivity].
  destruct (items_of h tags) as [items|]; [|discriminate].
  eapply declare_tags_distinct; [exact H|reflexivity].
Qed.

Lemma path_scan_grows (h : heap) (m : tag_map) (pathValue : value) :
  grows_from m (fold_left (scan_operation h) (getOperations h pathValue) m)
  /\ (distinct_keys m = true
      -> distinct_keys (fold_left (scan_operation h) (getOperations h pathValue) m) = true).
Proof. apply fold_grows. apply scan_operation_grows. Qed.

(** X19. The tag map of [list_controller_tags] never holds a key twice. It
    holds every primitive tag that an operation with an array of tags lists.
    A tag the document declares keeps the description of its declaration,
    and a tag only operations name has the empty description. *)
Theorem tag_map_distinct_complete_and_described
    (h : heap) (api : value) (declared m : tag_map) :
  declared_tags h api = Ok declared ->
  collect_tags h api = Ok m ->
  distinct_keys m = true
  /\ (forall path pathValue op tagNames p,
        In (path, pathValue) (entries h (or_else (get_prop h api "paths") (VNewObj []))) ->
        In op (getOperations h pathValue) ->
        truthy op = true ->
        truthy (get_prop h op "tags") = true ->
        items_of h (get_prop h op "tags") = Some tagNames ->
        In (VPrim p) tagNames ->
        map_has m (VPrim p) = true)
  /\ (forall k, map_has declared k = true ->
                map_has m k = true /\ map_get m k = map_get declared k)
  /\ (forall k, map_has declared k = false -> map_has m k = true ->
                map_get m k = str "").
Proof.
  intros Hd Hc. unfold collect_tags in Hc. rewrite Hd in Hc. cbn [JS.bind] in Hc.
  injection Hc as <-. unfold referenced_tags.
  pose proof (fold_grows
                (fun m pathValue => fold_left (scan_operation h) (getOperations h pathValue) m)
                (map snd (entries h (or_else (get_prop h api "paths") (VNewObj []))))
                (path_scan_grows h) declared) as [G D].
  split; [apply D, (declared_tags_distinct h api), Hd|].
  split; [|exact G].
  intros path pathValue op tagNames p Hin Hop Top Ttags Hitems Hp.
  apply (fold_has _ _ pathValue); [apply path_scan_grows| |].
  - intros m0. apply (fold_has _ _ op); [apply scan_operation_grows| |exact Hop].
    intros m1. unfold scan_operation. rewrite Top, Ttags, Hitems. cbn [andb].
    apply reference_tags_grows, Hp.
  - apply in_map_iff. exists (path, pathValue). split; [reflexivity|exact Hin].
Qed.

Lemma tag_map_distinct_complete_and_described_witness :
  declared_tags (doc_heap tags_document) (doc_root tags_document)
  = Ok [(str "Auth", str "Login"); (str "Users", str "User module")]
  /\ collect_tags (doc_heap tags_document) (doc_root tags_document)
     = Ok [(str "Auth", str "Login"); (str "Users", str "User module");
           (str "Orders", str "")]
  /\ distinct_keys [(str "Auth", str "Login"); (str "Users", str "User module");
                    (str "Orders", str "")] = true.
Proof.
  assert (Hd : declared_tags (doc_heap tags_document) (doc_root tags_document)
               = Ok [(str "Auth", str "Login"); (str "Users", str "User module")])
    by (vm_compute; reflexivity).
  assert (Hc : collect_tags (doc_heap tags_document) (doc_root tags_document)
               = Ok [(str "Auth", str "Login"); (str "Users", str "User module");
                     (str "Orders", str "")])
    by (vm_compute; reflexivity).
  split; [exact Hd|]. split; [exact Hc|].
  exact (proj1 (tag_map_distinct_complete_and_described _ _ _ _ Hd Hc)).
Defined.

(** *** The text of a failed validation *)

Lemma join_includes (sep : string) (l : list string) (x : string) :
  In x l -> includes (join sep l) x = true.
Proof.
  induction l as [|y r IH]; intros Hin; [destruct Hin|].
  destruct r as [|z r].
  - destruct Hin as [->|[]]. apply includes_refl.
  - change (join sep (y :: z :: r)) with (y ++ sep ++ join sep (z :: r)).
    destruct Hin as [->|Hin]; [apply includes_here|].
    do 2 apply includes_skip. apply IH, Hin.
Qed.

Lemma join_length (sep : string) (l : list string) (x : string) :
  (String.length x <= String.length (join sep (x :: l)))%nat.
Proof.
  destruct l as [|z r]; [apply Nat.le_refl|].
  change (join sep (x :: z :: r)) with (x ++ sep ++ join sep (z :: r)).
  rewrite NetMore.length_append. lia.
Qed.

Lemma issue_line_length (i : issue) : (2 <= String.length (issue_line i))%nat.
Proof.
  unfold issue_line. rewrite !NetMore.length_append. cbn [String.length]. lia.
Qed.

(** X20. The text [formatZodError] makes of the issues of a failed
    validation contains the line of every issue, path and message, and it
    is empty only when there is no issue. *)
Theorem validation_text_has_every_issue (issues : list issue) :
  (forall i, In i issues -> includes (formatZodError issues) (issue_line i) = true)
  /\ (formatZodError issues = "" <-> issues = []).
Proof.
  split.
  - intros i Hin. apply join_includes, in_map, Hin.
  - split; [|intros ->; reflexivity].
    destruct issues as [|i r]; [reflexivity|]. intros H. exfalso.
    pose proof (join_length "; " (map issue_line r) (issue_line i)) as Hlen.
    pose proof (issue_line_length i) as Hi.
    unfold formatZodError in H. cbn [map] in H. rewrite H in Hlen.
    cbn [String.length] in Hlen. lia.
Qed.

(** An issue at the root of the arguments and one inside an array. *)
Example validation_text_of_two_issues :
  formatZodError [Issue [] "Required"; Issue [inl "tags"; inr 3%nat] "Expected string"]
  = "(root): Required; tags.3: Expected string".
Proof. vm_compute. reflexivity. Qed.

(** *** The version *)



End ToolsMore.
